(** * AST-aware file reading: the [AstReadTool] of build/tools/read.js

    A shallow embedding of the four read modes (full, outline, lines,
    target) and of the function deduplicator, followed by the properties
    the specification states about them.

    Conventions.
    - JavaScript numbers that the code uses as line numbers and counts are
      integers here ([Z]); fractional values and NaN are outside the model.
    - The text of a file is the sequence of UTF-16 code units that
      [fs.readFileSync(path, "utf-8")] produces ([text]); identifiers,
      qualifiers, messages and hints are [string]s.
    - The Babel parser, [detectLanguage] of shared.js and
      [String.prototype.toLowerCase] are collaborators that live outside
      read.js; they are the fields of the class [Env]. *)

From Stdlib Require Import ZArith Lia Bool Ascii String.
From Stdlib.Strings Require Import Byte.
From stdpp Require Import base tactics option list list_numbers gmap strings pretty.

Local Open Scope Z_scope.

(** ** JavaScript built-ins the tool relies on *)
Module JS.

(** A string value as JavaScript sees it: UTF-16 code units. *)
Abbreviation text := (list Z) (only parsing).

(** ASCII source text written as a Rocq string literal. *)
Definition units (s : string) : text :=
  (fun a => Z.of_N (N_of_ascii a)) <$> list_ascii_of_string s.

Definition NEWLINE : Z := 10.

(** [x || d] on numbers: 0 is the falsy integer. *)
Definition or_num (x d : Z) : Z := if x =? 0 then d else x.

(** [s || d] on strings: the empty string is falsy. *)
Definition or_str (s d : string) : string :=
  match s with EmptyString => d | _ => s end.

(** The relative index of [Array.prototype.slice]: a negative argument
    counts from the end, and everything is clamped to [0, len]. *)
Definition rel_index (len i : Z) : Z :=
  if i <? 0 then Z.max (len + i) 0 else Z.min i len.

(** [arr.slice(s, e)] *)
Definition slice {A} (arr : list A) (s e : Z) : list A :=
  let len := Z.of_nat (length arr) in
  let k := rel_index len s in
  let final := rel_index len e in
  take (Z.to_nat (final - k)) (drop (Z.to_nat k) arr).

(** [arr[i]], undefined out of range *)
Definition index {A} (arr : list A) (i : Z) : option A :=
  if i <? 0 then None else arr !! Z.to_nat i.

(** [str.split(sep)] for a one-unit separator *)
Fixpoint split `{EqDecision A} (sep : A) (s : list A) : list (list A) :=
  match s with
  | [] => [[]]
  | c :: s' =>
      if decide (c = sep) then [] :: split sep s'
      else match split sep s' with
           | [] => [[c]]
           | l :: ls => (c :: l) :: ls
           end
  end.

(** [arr.join(sep)] for a one-unit separator *)
Fixpoint join {A} (sep : A) (ls : list (list A)) : list A :=
  match ls with
  | [] => []
  | [l] => l
  | l :: ls' => l ++ sep :: join sep ls'
  end.

(** [str.split(sep)] and [arr.join(sep)] on [string]s *)
Definition split_str (sep : ascii) (s : string) : list string :=
  string_of_list_ascii <$> split sep (list_ascii_of_string s).

Fixpoint join_str (sep : string) (ls : list string) : string :=
  match ls with
  | [] => ""
  | [l] => l
  | l :: ls' => l +:+ sep +:+ join_str sep ls'
  end.

(** [str.includes(needle)] *)
Fixpoint includes (needle s : string) : bool :=
  String.prefix needle s ||
  match s with
  | EmptyString => false
  | String _ s' => includes needle s'
  end.

(** White space and line terminators, as [String.prototype.trim] strips them *)
Definition is_space (c : Z) : bool :=
  ((9 <=? c) && (c <=? 13)) || (c =? 32) || (c =? 160) || (c =? 5760)
  || ((8192 <=? c) && (c <=? 8202)) || (c =? 8232) || (c =? 8233)
  || (c =? 8239) || (c =? 8287) || (c =? 12288) || (c =? 65279).

Fixpoint trim_start (s : text) : text :=
  match s with
  | c :: s' => if is_space c then trim_start s' else s
  | [] => []
  end.

Definition trim (s : text) : text :=
  reverse (trim_start (reverse (trim_start s))).

(** *** Decoding a file's bytes, as [readFileSync(path, "utf-8")] does.
    Ill-formed input yields U+FFFD per maximal ill-formed subpart; code
    points beyond the BMP become surrogate pairs. *)
Record utf8_state := {
  code_point : Z; bytes_seen : Z; bytes_needed : Z; lower : Z; upper : Z
}.

Definition utf8_init : utf8_state :=
  {| code_point := 0; bytes_seen := 0; bytes_needed := 0;
     lower := 128; upper := 191 |}.

Definition utf16_encode (cp : Z) : text :=
  if cp <? 65536 then [cp]
  else [55296 + Z.shiftr (cp - 65536) 10; 56320 + Z.land (cp - 65536) 1023].

Definition REPLACEMENT : Z := 65533.

(** A byte met when no sequence is open. *)
Definition utf8_lead (b : Z) : text * utf8_state :=
  if b <=? 127 then ([b], utf8_init)
  else if (194 <=? b) && (b <=? 223) then
    ([], {| code_point := Z.land b 31; bytes_seen := 0; bytes_needed := 1;
            lower := 128; upper := 191 |})
  else if (224 <=? b) && (b <=? 239) then
    ([], {| code_point := Z.land b 15; bytes_seen := 0; bytes_needed := 2;
            lower := if b =? 224 then 160 else 128;
            upper := if b =? 237 then 159 else 191 |})
  else if (240 <=? b) && (b <=? 244) then
    ([], {| code_point := Z.land b 7; bytes_seen := 0; bytes_needed := 3;
            lower := if b =? 240 then 144 else 128;
            upper := if b =? 244 then 143 else 191 |})
  else ([REPLACEMENT], utf8_init).

Fixpoint utf8_run (st : utf8_state) (bs : list byte) : text :=
  match bs with
  | [] => if bytes_needed st =? 0 then [] else [REPLACEMENT]
  | x :: rest =>
      let b := Z.of_N (Byte.to_N x) in
      if bytes_needed st =? 0 then
        let '(out, st') := utf8_lead b in out ++ utf8_run st' rest
      else if (lower st <=? b) && (b <=? upper st) then
        let cp := Z.lor (Z.shiftl (code_point st) 6) (Z.land b 63) in
        let seen := bytes_seen st + 1 in
        if seen =? bytes_needed st then utf16_encode cp ++ utf8_run utf8_init rest
        else utf8_run {| code_point := cp; bytes_seen := seen;
                         bytes_needed := bytes_needed st;
                         lower := 128; upper := 191 |} rest
      else
        let '(out, st') := utf8_lead b in
        REPLACEMENT :: out ++ utf8_run st' rest
  end.

Definition utf8_decode (bs : list byte) : text := utf8_run utf8_init bs.

End JS.

(** ** Syntax trees, as @babel/parser hands them to @babel/traverse *)
Module Ast.

(** [node.loc]: 1-based lines, 0-based columns *)
Record loc := { start_line : Z; start_column : Z; end_line : Z }.

(** What [getFunctionSignature] reads of a function-like node: [async],
    the name of [id] when there is one, and for every parameter its name
    when it is a plain identifier. *)
Record fn_info := {
  fn_async : bool; fn_id : option string; fn_params : list (option string)
}.

(** [node.init] of a variable declarator *)
Inductive init_shape :=
| ArrowFunctionExpression (f : fn_info)
| FunctionExpression (f : fn_info)
| OtherInit.

(** One entry of [node.body.body] of a class: whether it is a
    [ClassMethod], the name of its key when that is an identifier, and
    the fields the tool reads from a method. *)
Record member := {
  is_class_method : bool; m_key : option string; m_loc : loc;
  m_async : bool; m_static : bool; m_params : list (option string)
}.

Inductive import_specifier :=
| ImportDefaultSpecifier (local : string)
| ImportSpecifier (imported : option string)
| ImportNamespaceSpecifier (local : string).

(** [node.declaration] of a named export, as far as the tool inspects it *)
Inductive export_declaration :=
| ExportedFunction (id : option string)
| ExportedVariables (ids : list (option string))
| ExportedClass (id : option string)
| ExportedOther.

Inductive default_declaration :=
| DefaultFunction (id : option string)
| DefaultClass (id : option string)
| DefaultIdentifier (name : string)
| DefaultOther.

(** The node types that have a visitor, each with the fields its visitor
    reads; every other node type is [OtherNode]. Names are [Some] exactly
    when the corresponding sub-node is an [Identifier]. *)
Inductive kind :=
| FunctionDeclaration (f : fn_info)
| VariableDeclarator (id : option string) (init : init_shape)
| ClassDeclaration (id : option string) (superClass : option string)
                   (body : list member)
| ImportDeclaration (source : string) (specifiers : list import_specifier)
| CallExpression (callee : option string) (arguments : list (option string))
| ExportNamedDeclaration (declaration : option export_declaration)
                         (specifiers : list (option string))
| ExportDefaultDeclaration (declaration : default_declaration)
| OtherNode.

(** A node: its type and fields, its location, and its sub-nodes in the
    order the traversal enters them. *)
#[warnings="-register-all"]
Inductive node := Node (k : kind) (l : loc) (children : list node).

Definition node_kind (n : node) : kind := let 'Node k _ _ := n in k.
Definition node_loc (n : node) : loc := let 'Node _ l _ := n in l.

(** The paths of a depth-first traversal in the order their visitors
    run: each node with its parent ([path.parent]). *)
Fixpoint paths (parent : option node) (n : node) : list (option node * node) :=
  match n with
  | Node _ _ children =>
      (parent, n) :: flat_map (paths (Some n)) children
  end.

Definition traversal (ast : node) : list (option node * node) := paths None ast.

(** [node.loc?.start.line || 0] and [node.loc?.end.line || start] *)
Definition start_of (l : loc) : Z := JS.or_num (start_line l) 0.
Definition end_of (l : loc) : Z := JS.or_num (end_line l) (start_of l).

End Ast.

(** A thrown JavaScript error: [error.message] and [error.constructor.name] *)
Record js_error := { message : string; constructor_name : string }.

(** ** Collaborators outside read.js *)
Class Env := {
  (** [parser.parse(content, { sourceType: "module", plugins })]: a tree
      or a thrown error *)
  parse : list string -> JS.text -> js_error + Ast.node;
  (** [detectLanguage(path)] of shared.js *)
  detectLanguage : string -> string;
  (** [extractJSDoc(node)] of shared.js *)
  extractJSDoc : Ast.node -> option string;
  (** [str.toLowerCase()] *)
  toLowerCase : string -> string
}.

(** ** Records of an outline *)
Inductive function_type := function_declaration | arrow_function | function_expression.

Global Instance function_type_eq_dec : EqDecision function_type.
Proof. solve_decision. Defined.

Definition function_type_name (t : function_type) : string :=
  match t with
  | function_declaration => "function_declaration"
  | arrow_function => "arrow_function"
  | function_expression => "function_expression"
  end.

Record function_record := {
  func_name : string; func_line : Z; func_column : Z; func_async : bool;
  func_signature : string; func_type : function_type; func_jsdoc : option string
}.

Record method_record := {
  method_name : string; method_line : Z; method_async : bool;
  method_static : bool; method_signature : string
}.

Record class_record := {
  class_name : string; class_line : Z; class_column : Z;
  class_methods : list method_record; class_extends : option string;
  class_jsdoc : option string
}.

Record import_record := {
  import_source : string; import_imported : list string; import_line : Z;
  import_raw : JS.text
}.

Inductive export_type := named_export | default_export.

Record export_record := {
  export_kind : export_type; export_name : option string; export_line : Z;
  export_raw : JS.text
}.

Record structure := {
  functions : list function_record; classes : list class_record;
  imports : list import_record; exports : list export_record
}.

(** ** Requests and results *)
Inductive mode := FullMode | OutlineMode | LinesMode | TargetMode.

Definition mode_name (m : mode) : string :=
  match m with
  | FullMode => "full" | OutlineMode => "outline"
  | LinesMode => "lines" | TargetMode => "target"
  end.

(** A request after [ReadFileSchema.parse]: the optional fields with a
    default are filled in, [target] and [line] may be absent. *)
Record params := {
  file_path : string; read_mode : mode; target_qualifier : option string;
  line : option Z; linesAbove : Z; linesBelow : Z; context : bool;
  contextLines : Z; show_calls : bool; show_dependencies : bool; verbose : bool
}.

Record error_result := {
  error : string; error_type : string; error_file_path : string;
  error_mode : mode; hint : option string
}.

Record full_result := {
  full_file_path : string; line_count : Z; size_bytes : Z; full_content : JS.text
}.

Record lines_result := {
  lines_file_path : string; target_line : Z; start_line : Z; end_line : Z;
  total_lines : Z; lines_above : Z; lines_below : Z; lines_content : JS.text;
  lines_summary : option string
}.

Record stats := {
  function_count : Z; class_count : Z; import_count : Z; export_count : Z
}.

Record outline_result := {
  outline_file_path : string; language : string; outline_structure : structure;
  outline_stats : stats; outline_summary : option string
}.

Record outline_failure := {
  failure_error : string; failure_error_type : string;
  failure_file_path : string; failure_hint : string;
  partial_structure : structure
}.

Record target_result := {
  target_type : string; target_name : string; target_class_name : option string;
  target_start : Z; target_end : Z; code : JS.text;
  context_before : JS.text; context_after : JS.text;
  target_summary : option string
}.

Inductive result :=
| Full (r : full_result)
| Lines (r : lines_result)
| Outline (r : outline_result)
| OutlineFailed (r : outline_failure)
| Target (r : target_result)
| TargetImports (l : list import_record) (summary : option string)
| TargetExports (l : list export_record) (summary : option string)
| Error (r : error_result).

(** The [success] field of a response *)
Definition success (r : result) : bool :=
  match r with
  | OutlineFailed _ | Error _ => false
  | _ => true
  end.

(** The file system as [existsSync] and [readFileSync] see it: a path is
    absent, holds bytes, or exists but cannot be read (a directory, say),
    in which case [readFileSync] throws. *)
Inductive fs_entry := FileBytes (bytes : list byte) | Unreadable (e : js_error).
Definition file_system := string -> option fs_entry.

(** ** The deduplicator ([deduplicateFunctions]) *)

(** The [seen] map: a JavaScript [Map] iterates in insertion order, so it
    is an association list, oldest entry first. *)
Definition seen_map := list (string * function_record).

Definition map_has (k : string) (seen : seen_map) : bool :=
  bool_decide (k ∈ seen.*1).

Definition map_delete (k : string) (seen : seen_map) : seen_map :=
  filter (λ e, e.1 ≠ k) seen.

Definition map_set (k : string) (v : function_record) (seen : seen_map) : seen_map :=
  if map_has k seen
  then (λ e : string * function_record, if decide (e.1 = k) then (k, v) else e) <$> seen
  else seen ++ [(k, v)].

(** [`${func.name}:${func.line}:${func.type}`] *)
Definition dedup_key (func : function_record) : string :=
  func_name func +:+ ":" +:+ pretty (func_line func) +:+ ":"
    +:+ function_type_name (func_type func).

(** Same name, at most two lines apart *)
Definition nearby (existingFunc func : function_record) : bool :=
  bool_decide (func_name existingFunc = func_name func)
  && (Z.abs (func_line existingFunc - func_line func) <=? 2).

Definition is_declaration (func : function_record) : bool :=
  bool_decide (func_type func = function_declaration).

(** The body of the filter callback: whether [func] is kept, and the
    [seen] map afterwards. The [for ... of] loop returns at the first
    entry that is nearby. *)
Definition dedup_step (seen : seen_map) (func : function_record) : bool * seen_map :=
  let key := dedup_key func in
  if map_has key seen then (false, seen)
  else
    match List.find (λ e, nearby e.2 func) seen with
    | Some (existingKey, existingFunc) =>
        if is_declaration func && negb (is_declaration existingFunc)
        then (true, map_set key func (map_delete existingKey seen))
        else (false, seen)
    | None => (true, map_set key func seen)
    end.

(** [functions.filter(callback)] with the map threaded through *)
Fixpoint dedup_from (seen : seen_map) (l : list function_record) : list function_record :=
  match l with
  | [] => []
  | func :: l' =>
      let '(keep, seen') := dedup_step seen func in
      if keep then func :: dedup_from seen' l' else dedup_from seen' l'
  end.

Definition deduplicateFunctions (l : list function_record) : list function_record :=
  dedup_from [] l.

(** ** Signatures *)
Definition render_params (ps : list (option string)) : string :=
  JS.join_str ", " (default "..." <$> ps).

Definition async_prefix (b : bool) : string := if b then "async " else "".

(** [getFunctionSignature(node)]; [arrow] is [t.isArrowFunctionExpression(node)] *)
Definition getFunctionSignature (arrow : bool) (f : Ast.fn_info) : string :=
  let ps := render_params (Ast.fn_params f) in
  let name := default "" (Ast.fn_id f) in
  if arrow then async_prefix (Ast.fn_async f) +:+ "(" +:+ ps +:+ ") => {...}"
  else async_prefix (Ast.fn_async f) +:+ "function " +:+ name +:+ "(" +:+ ps +:+ ")".

(** [getMethodSignature(node)] *)
Definition getMethodSignature (m : Ast.member) : string :=
  let ps := render_params (Ast.m_params m) in
  let static_ := if Ast.m_static m then "static " else "" in
  let name := default "unknown" (Ast.m_key m) in
  static_ +:+ async_prefix (Ast.m_async m) +:+ name +:+ "(" +:+ ps +:+ ")".

(** [count !== 1 ? suffix : ''] *)
Definition plural (n : Z) (suffix : string) : string := if n =? 1 then "" else suffix.

(** ** The tool ([AstReadTool]) *)
Section Tool.
Context {env : Env}.

(** [createError(message, type, filePath, mode, hint)] *)
Definition createError (msg type filePath : string) (m : mode)
    (h : option string) : result :=
  Error {| error := msg; error_type := type; error_file_path := filePath;
           error_mode := m; hint := h |}.

(** [getHelpfulHint(error)] *)
Definition getHelpfulHint (e : js_error) : string :=
  let msg := toLowerCase (message e) in
  if JS.includes "unexpected token" msg then
    "File may contain syntax errors or use unsupported JavaScript features. Try using mode='full' instead."
  else if JS.includes "eof" msg || JS.includes "unterminated" msg then
    "File appears to have unclosed brackets or strings. Check file syntax."
  else "Try using mode='full' to read the entire file without parsing.".

(** [readFull(filePath, content)] *)
Definition readFull (filePath : string) (content : JS.text) : result :=
  let lines := JS.split JS.NEWLINE content in
  Full {| full_file_path := filePath;
          line_count := Z.of_nat (length lines);
          size_bytes := Z.of_nat (length content);
          full_content := content |}.

(** [readLines(params, content)]; [targetLine] is [params.line], which
    [execute] has checked to be present. *)
Definition readLines (p : params) (targetLine : Z) (content : JS.text) : result :=
  let lines := JS.split JS.NEWLINE content in
  let len := Z.of_nat (length lines) in
  let above := JS.or_num (linesAbove p) 10 in
  let below := JS.or_num (linesBelow p) 10 in
  if (targetLine <? 1) || (len <? targetLine) then
    createError
      ("Line " +:+ pretty targetLine +:+ " out of range (file has "
         +:+ pretty len +:+ " lines)")
      "LINE_OUT_OF_RANGE" (file_path p) (read_mode p) None
  else
    let startLine := Z.max 1 (targetLine - above) in
    let endLine := Z.min len (targetLine + below) in
    let extractedLines := JS.slice lines (startLine - 1) endLine in
    Lines {| lines_file_path := file_path p;
             target_line := targetLine;
             start_line := startLine;
             end_line := endLine;
             total_lines := len;
             lines_above := targetLine - startLine;
             lines_below := endLine - targetLine;
             lines_content := JS.join JS.NEWLINE extractedLines;
             lines_summary :=
               if verbose p then None
               else Some ("✅ Showing line " +:+ pretty targetLine +:+ " ("
                            +:+ pretty startLine +:+ "-" +:+ pretty endLine
                            +:+ " of " +:+ pretty len +:+ " total lines)") |}.

(** *** Outline *)

(** What the visitors of [readOutline] accumulate *)
Record outline_state := {
  st_functions : list function_record;
  st_classes : list class_record;
  st_imports : list import_record;
  st_exports : list export_record;
  classBodyLines : gset Z
}.

Definition outline_init : outline_state :=
  {| st_functions := []; st_classes := []; st_imports := [];
     st_exports := []; classBodyLines := ∅ |}.

Definition push_function (st : outline_state) (f : function_record) :=
  {| st_functions := st_functions st ++ [f]; st_classes := st_classes st;
     st_imports := st_imports st; st_exports := st_exports st;
     classBodyLines := classBodyLines st |}.

Definition push_import (st : outline_state) (i : import_record) :=
  {| st_functions := st_functions st; st_classes := st_classes st;
     st_imports := st_imports st ++ [i]; st_exports := st_exports st;
     classBodyLines := classBodyLines st |}.

Definition push_exports (st : outline_state) (es : list export_record) :=
  {| st_functions := st_functions st; st_classes := st_classes st;
     st_imports := st_imports st; st_exports := st_exports st ++ es;
     classBodyLines := classBodyLines st |}.

(** The lines [start..end] added to the set, then the class pushed *)
Definition push_class (st : outline_state) (first last : Z) (c : class_record) :=
  {| st_functions := st_functions st; st_classes := st_classes st ++ [c];
     st_imports := st_imports st; st_exports := st_exports st;
     classBodyLines :=
       classBodyLines st ∪ list_to_set (seqZ first (last - first + 1)) |}.

(** [content.split("\n")[i]?.trim() || ""] *)
Definition raw_line (content : JS.text) (i : Z) : JS.text :=
  match JS.index (JS.split JS.NEWLINE content) i with
  | Some l => JS.trim l
  | None => []
  end.

Definition import_name (spec : Ast.import_specifier) : string :=
  match spec with
  | Ast.ImportDefaultSpecifier local => local
  | Ast.ImportSpecifier imported => default "unknown" imported
  | Ast.ImportNamespaceSpecifier local => "* as " +:+ local
  end.

Definition method_of (m : Ast.member) : option method_record :=
  match Ast.is_class_method m, Ast.m_key m with
  | true, Some name =>
      Some {| method_name := name;
              method_line := Ast.start_of (Ast.m_loc m);
              method_async := Ast.m_async m;
              method_static := Ast.m_static m;
              method_signature := getMethodSignature m |}
  | _, _ => None
  end.

Definition function_like (init : Ast.init_shape) : option (bool * Ast.fn_info) :=
  match init with
  | Ast.ArrowFunctionExpression f => Some (true, f)
  | Ast.FunctionExpression f => Some (false, f)
  | Ast.OtherInit => None
  end.

Definition named_at (content : JS.text) (ln : Z) (name : string) : export_record :=
  {| export_kind := named_export; export_name := Some name; export_line := ln;
     export_raw := raw_line content (ln - 1) |}.

(** The visitors of [readOutline], dispatched on the node type *)
Definition visit_outline (content : JS.text) (st : outline_state)
    (path : option Ast.node * Ast.node) : outline_state :=
  let node := path.2 in
  let l := Ast.node_loc node in
  match Ast.node_kind node with
  | Ast.FunctionDeclaration f =>
      match Ast.fn_id f with
      | Some name =>
          let ln := Ast.start_of l in
          if bool_decide (ln ∈ classBodyLines st) then st
          else push_function st
                 {| func_name := name; func_line := ln;
                    func_column := JS.or_num (Ast.start_column l) 0;
                    func_async := Ast.fn_async f;
                    func_signature := getFunctionSignature false f;
                    func_type := function_declaration;
                    func_jsdoc := extractJSDoc node |}
      | None => st
      end
  | Ast.VariableDeclarator (Some name) init =>
      match function_like init with
      | Some (arrow, f) =>
          let ln := Ast.start_of l in
          if bool_decide (ln ∈ classBodyLines st) then st
          else push_function st
                 {| func_name := name; func_line := ln;
                    func_column := JS.or_num (Ast.start_column l) 0;
                    func_async := Ast.fn_async f;
                    func_signature := name +:+ " = " +:+ getFunctionSignature arrow f;
                    func_type := if arrow then arrow_function else function_expression;
                    func_jsdoc := extractJSDoc node |}
      | None => st
      end
  | Ast.ClassDeclaration (Some name) superClass body =>
      let first := Ast.start_of l in
      let last := Ast.end_of l in
      push_class st first last
        {| class_name := name; class_line := first;
           class_column := JS.or_num (Ast.start_column l) 0;
           class_methods := omap method_of body;
           class_extends := superClass;
           class_jsdoc := extractJSDoc node |}
  | Ast.ImportDeclaration source specifiers =>
      push_import st
        {| import_source := source;
           import_imported := import_name <$> specifiers;
           import_line := Ast.start_of l;
           import_raw :=
             raw_line content
               (if Ast.start_line l =? 0 then 0 else Ast.start_line l - 1) |}
  | Ast.CallExpression (Some callee) (Some source :: _) =>
      if bool_decide (callee = "require") then
        let varName :=
          match path.1 with
          | Some (Ast.Node (Ast.VariableDeclarator (Some id) _) _ _) => id
          | _ => "unknown"
          end in
        push_import st
          {| import_source := source; import_imported := [varName];
             import_line := Ast.start_of l;
             import_raw :=
               raw_line content
                 (if Ast.start_line l =? 0 then 0 else Ast.start_line l - 1) |}
      else st
  | Ast.ExportNamedDeclaration declaration specifiers =>
      let ln := Ast.start_of l in
      match declaration with
      | Some (Ast.ExportedFunction (Some name))
      | Some (Ast.ExportedClass (Some name)) =>
          push_exports st [named_at content ln name]
      | Some (Ast.ExportedVariables ids) =>
          push_exports st (named_at content ln <$> omap id ids)
      | Some _ => st
      | None => push_exports st (named_at content ln <$> omap id specifiers)
      end
  | Ast.ExportDefaultDeclaration declaration =>
      let ln := Ast.start_of l in
      let name :=
        match declaration with
        | Ast.DefaultFunction id | Ast.DefaultClass id => id
        | Ast.DefaultIdentifier name => Some name
        | Ast.DefaultOther => None
        end in
      push_exports st
        [{| export_kind := default_export; export_name := name;
            export_line := ln; export_raw := raw_line content (ln - 1) |}]
  | _ => st
  end.

(** [traverseFn(ast, visitors)] of [readOutline]: no visitor stops or
    skips, so every path is visited, in order. *)
Definition collect_outline (content : JS.text) (ast : Ast.node) : outline_state :=
  fold_left (visit_outline content) (Ast.traversal ast) outline_init.

Definition outline_plugins : list string :=
  ["jsx"; "typescript"; "classProperties"; "dynamicImport"; "asyncGenerators";
   "objectRestSpread"; "optionalChaining"; "nullishCoalescingOperator"].

Definition empty_structure : structure :=
  {| functions := []; classes := []; imports := []; exports := [] |}.

(** [readOutline(params, content, language)] *)
Definition readOutline (p : params) (content : JS.text) (lang : string) : result :=
  match parse outline_plugins content with
  | inr ast =>
      let st := collect_outline content ast in
      let uniqueFunctions := deduplicateFunctions (st_functions st) in
      let counts :=
        {| function_count := Z.of_nat (length uniqueFunctions);
           class_count := Z.of_nat (length (st_classes st));
           import_count := Z.of_nat (length (st_imports st));
           export_count := Z.of_nat (length (st_exports st)) |} in
      Outline
        {| outline_file_path := file_path p; language := lang;
           outline_structure :=
             {| functions := uniqueFunctions; classes := st_classes st;
                imports := st_imports st; exports := st_exports st |};
           outline_stats := counts;
           outline_summary :=
             if verbose p then None
             else Some ("✅ File analyzed: "
               +:+ pretty (function_count counts) +:+ " function"
               +:+ plural (function_count counts) "s" +:+ ", "
               +:+ pretty (class_count counts) +:+ " class"
               +:+ plural (class_count counts) "es" +:+ ", "
               +:+ pretty (import_count counts) +:+ " import"
               +:+ plural (import_count counts) "s" +:+ ", "
               +:+ pretty (export_count counts) +:+ " export"
               +:+ plural (export_count counts) "s") |}
  | inl e =>
      let errorMsg := JS.or_str (message e) "Unknown error" in
      let isTraverseError :=
        JS.includes "traverse" errorMsg || JS.includes "not a function" errorMsg in
      OutlineFailed
        {| failure_error := "Failed to parse file: " +:+ errorMsg;
           failure_error_type := constructor_name e;
           failure_file_path := file_path p;
           failure_hint :=
             if isTraverseError then
               "Module loading error detected. This is a bug in the MCP server. Please report to developer with this error message."
             else getHelpfulHint e;
           partial_structure := empty_structure |}
  end.

(** *** Target *)

Definition target_plugins : list string :=
  ["jsx"; "typescript"; "classProperties"; "dynamicImport"].

(** Truthiness of an optional string: absent and empty are falsy. *)
Definition truthy (s : option string) : bool :=
  match s with Some (String _ _) => true | _ => false end.

(** The [extractCode] helper of [readTarget]; [lines] and [ctx] are the
    [lines] and [contextLines] constants it closes over. *)
Definition extractCode (p : params) (lines : list JS.text) (ctx : Z)
    (first last : Z) (targetType targetName : string)
    (className : option string) : target_result :=
  let contextStart := Z.max 0 (first - ctx) in
  let contextEnd := Z.min (Z.of_nat (length lines)) (last + ctx) in
  {| target_type := targetType; target_name := targetName;
     target_class_name := if truthy className then className else None;
     target_start := first; target_end := last;
     code := JS.join JS.NEWLINE (JS.slice lines (first - 1) last);
     context_before :=
       if context p
       then JS.join JS.NEWLINE (JS.slice lines contextStart (first - 1)) else [];
     context_after :=
       if context p
       then JS.join JS.NEWLINE (JS.slice lines last contextEnd) else [];
     target_summary := None |}.

(** [node.body.body.find(member => t.isClassMethod(member) &&
    t.isIdentifier(member.key) && member.key.name === targetName)] *)
Definition find_method (body : list Ast.member) (targetName : string)
    : option Ast.member :=
  List.find (λ m, Ast.is_class_method m && bool_decide (Ast.m_key m = Some targetName))
    body.

(** The visitors of [readTarget] at one node: [Some] when the node is
    the target, in which case the visitor calls [path.stop()]. *)
Definition visit_target (p : params) (lines : list JS.text) (ctx : Z)
    (targetType targetName : string) (className : option string)
    (node : Ast.node) : option target_result :=
  let l := Ast.node_loc node in
  let extract := extractCode p lines ctx in
  let method_extract (m : Ast.member) (cls : option string) :=
    extract (Ast.start_of (Ast.m_loc m)) (Ast.end_of (Ast.m_loc m))
      "method" targetName cls in
  match Ast.node_kind node with
  | Ast.ClassDeclaration currentClassName _ body =>
      if bool_decide (targetType = "class") && negb (truthy className)
         && bool_decide (currentClassName = Some targetName)
      then Some (extract (Ast.start_of l) (Ast.end_of l) "class" targetName None)
      else
        match
          (if (bool_decide (targetType = "class") || bool_decide (targetType = "method"))
              && truthy className && bool_decide (currentClassName = className)
           then find_method body targetName else None)
        with
        | Some m => Some (method_extract m className)
        | None =>
            match
              (if (bool_decide (targetType = "method")
                   || bool_decide (targetType = "function"))
                  && negb (truthy className)
               then find_method body targetName else None)
            with
            | Some m => Some (method_extract m currentClassName)
            | None => None
            end
        end
  | Ast.FunctionDeclaration f =>
      if bool_decide (targetType = "function")
         && bool_decide (Ast.fn_id f = Some targetName)
      then Some (extract (Ast.start_of l) (Ast.end_of l) "function" targetName None)
      else None
  | Ast.VariableDeclarator id init =>
      if bool_decide (targetType = "function") && bool_decide (id = Some targetName)
         && bool_decide (is_Some (function_like init))
      then Some (extract (Ast.start_of l) (Ast.end_of l) "function" targetName None)
      else None
  | _ => None
  end.

(** A traversal whose visitors stop at the first hit *)
Fixpoint first_hit {A B} (visit : A -> option B) (l : list A) : option B :=
  match l with
  | [] => None
  | x :: l' => match visit x with Some r => Some r | None => first_hit visit l' end
  end.

(** The qualifier [type:path], with [path] either [name] or
    [ClassName.name]: the target type, the path, the class name and the
    target name. *)
Definition parse_qualifier (qualifier : string)
    : string * string * option string * string :=
  let targetParts := JS.split_str ":" qualifier in
  let targetType := default "" (targetParts !! 0%nat) in
  let targetPath := default "" (targetParts !! 1%nat) in
  if JS.includes "." targetPath then
    let parts := JS.split_str "." targetPath in
    (targetType, targetPath, parts !! 0%nat, default "" (parts !! 1%nat))
  else (targetType, targetPath, None, targetPath).

(** The summary line added to a target result when [verbose] is false *)
Definition summarise (p : params) (r : target_result) : target_result :=
  if verbose p then r
  else
    let lineCount := target_end r - target_start r + 1 in
    let entityName :=
      match target_class_name r with
      | Some c => c +:+ "." +:+ target_name r
      | None => target_name r
      end in
    {| target_type := target_type r; target_name := target_name r;
       target_class_name := target_class_name r;
       target_start := target_start r; target_end := target_end r;
       code := code r; context_before := context_before r;
       context_after := context_after r;
       target_summary :=
         Some ("✅ Extracted " +:+ target_type r +:+ " '" +:+ entityName
                 +:+ "' (" +:+ pretty lineCount +:+ " line"
                 +:+ plural lineCount "s" +:+ ")") |}.

(** The search of [readTarget] in a parsed file: the traversal with the
    three visitors. *)
Definition find_target (p : params) (content : JS.text) (ast : Ast.node)
    (targetType targetName : string) (className : option string)
    : option target_result :=
  let lines := JS.split JS.NEWLINE content in
  let ctx := JS.or_num (contextLines p) 5 in
  first_hit (λ path, visit_target p lines ctx targetType targetName className path.2)
    (Ast.traversal ast).

Definition not_found_hint (targetType targetName : string)
    (className : option string) : string :=
  if bool_decide (targetType = "function") || bool_decide (targetType = "method") then
    "Method '" +:+ targetName +:+ "' not found. If it's a class method, try:
" +:+ "  • 'class:ClassName." +:+ targetName +:+ "' (if you know the class name)
" +:+ "  • 'method:" +:+ targetName +:+ "' (to search all classes)
" +:+ "  • Use mode='outline' to see all available methods"
  else if bool_decide (targetType = "class") && truthy className then
    "Method '" +:+ targetName +:+ "' not found in class '"
      +:+ default "" className +:+ "'.
" +:+ "Use mode='outline' to see all methods in this class."
  else "Try using mode='outline' first to see available entities".

(** [readTarget(params, content, language)]; [qualifier] is
    [params.target], which [execute] has checked to be present. *)
Definition readTarget (p : params) (qualifier : string) (content : JS.text)
    (lang : string) : result :=
  let '(targetType, targetPath, className, targetName) := parse_qualifier qualifier in
  if bool_decide (targetType = "imports") then
    match readOutline p content lang with
    | Outline o =>
        let l := imports (outline_structure o) in
        let n := Z.of_nat (length l) in
        TargetImports l
          (if verbose p then None
           else Some ("✅ Found " +:+ pretty n +:+ " import" +:+ plural n "s"))
    | other => other
    end
  else if bool_decide (targetType = "exports") then
    match readOutline p content lang with
    | Outline o =>
        let l := exports (outline_structure o) in
        let n := Z.of_nat (length l) in
        TargetExports l
          (if verbose p then None
           else Some ("✅ Found " +:+ pretty n +:+ " export" +:+ plural n "s"))
    | other => other
    end
  else
    match parse target_plugins content with
    | inr ast =>
        match find_target p content ast targetType targetName className with
        | Some r => Target (summarise p r)
        | None =>
            createError (targetType +:+ " '" +:+ targetPath +:+ "' not found in file")
              "TARGET_NOT_FOUND" (file_path p) (read_mode p)
              (Some (not_found_hint targetType targetName className))
        end
    | inl e =>
        createError ("Failed to extract target: " +:+ message e)
          (constructor_name e) (file_path p) (read_mode p) None
    end.

(** [execute(input)], after the schema has validated the input *)
Definition execute (fs : file_system) (p : params) : result :=
  match fs (file_path p) with
  | None =>
      createError ("File not found: " +:+ file_path p) "FILE_NOT_FOUND"
        (file_path p) (read_mode p) None
  | Some (Unreadable e) =>
      createError (JS.or_str (message e) "Unknown error") (constructor_name e)
        (file_path p) (read_mode p) (Some (getHelpfulHint e))
  | Some (FileBytes bytes) =>
      let content := JS.utf8_decode bytes in
      let lang := detectLanguage (file_path p) in
      match read_mode p with
      | FullMode => readFull (file_path p) content
      | OutlineMode => readOutline p content lang
      | LinesMode =>
          match line p with
          | Some n =>
              if n =? 0 then
                createError "line parameter required when mode='lines'"
                  "MISSING_LINE" (file_path p) (read_mode p) None
              else readLines p n content
          | None =>
              createError "line parameter required when mode='lines'"
                "MISSING_LINE" (file_path p) (read_mode p) None
          end
      | TargetMode =>
          match target_qualifier p with
          | Some (String c q) => readTarget p (String c q) content lang
          | _ =>
              createError "target parameter required when mode='target'"
                "MISSING_TARGET" (file_path p) (read_mode p) None
          end
      end
  end.

End Tool.

(** ** Notions used to state the properties *)

(** The lines numbered [a] to [b] (1-based, inclusive) of a file *)
Definition line_range (lines : list JS.text) (a b : Z) : list JS.text :=
  omap (λ i, JS.index lines (i - 1)) (seqZ a (b - a + 1)).

(** [s] occurs in [t] as a contiguous run of code units *)
Definition substring (s t : JS.text) : Prop := ∃ p q, t = p ++ s ++ q.

(** How often a unit occurs in a text *)
Definition occurrences (c : Z) (s : JS.text) : nat :=
  length (filter (λ x, x = c) s).

(** The [error_type] of a response, when it is an error built by [createError] *)
Definition error_kind (r : result) : option string :=
  match r with Error e => Some (error_type e) | _ => None end.

(** A function declaration, or a variable bound to an arrow function or a
    function expression, with the given name *)
Definition declares_function (name : string) (node : Ast.node) : bool :=
  match Ast.node_kind node with
  | Ast.FunctionDeclaration f => bool_decide (Ast.fn_id f = Some name)
  | Ast.VariableDeclarator id init =>
      bool_decide (id = Some name) && bool_decide (is_Some (function_like init))
  | _ => false
  end.

(** The first method with the given name of a class declaration *)
Definition method_in_class (name : string) (node : Ast.node) : option Ast.member :=
  match Ast.node_kind node with
  | Ast.ClassDeclaration _ _ body => find_method body name
  | _ => None
  end.

(** The name of a class declaration *)
Definition class_id (node : Ast.node) : option string :=
  match Ast.node_kind node with
  | Ast.ClassDeclaration id _ _ => id
  | _ => None
  end.


(** A class declaration that has a name and whose lines include [ln] *)
Definition named_class_spanning (ln : Z) (node : Ast.node) : bool :=
  match Ast.node_kind node with
  | Ast.ClassDeclaration (Some _) _ _ =>
      (Ast.start_of (Ast.node_loc node) <=? ln) && (ln <=? Ast.end_of (Ast.node_loc node))
  | _ => false
  end.

(** ** Fixtures: collaborators for concrete files *)

Definition ascii_lower (a : ascii) : ascii :=
  let n := N_of_ascii a in
  if ((65 <=? n) && (n <=? 90))%N then ascii_of_N (n + 32) else a.

Fixpoint lower_ascii_string (s : string) : string :=
  match s with
  | EmptyString => EmptyString
  | String a s' => String (ascii_lower a) (lower_ascii_string s')
  end.

(** A parser that answers [r] whatever the text; a language detector for
    JavaScript paths; no doc comments. *)
Definition fixture (r : js_error + Ast.node) : Env :=
  {| parse := λ _ _, r;
     detectLanguage := λ _, "javascript";
     extractJSDoc := λ _, None;
     toLowerCase := lower_ascii_string |}.

Definition at_line (first last : Z) : Ast.loc :=
  {| Ast.start_line := first; Ast.start_column := 0; Ast.end_line := last |}.

Definition plain_function (name : string) : Ast.kind :=
  Ast.FunctionDeclaration
    {| Ast.fn_async := false; Ast.fn_id := Some name; Ast.fn_params := [] |}.

Definition plain_method (name : string) (first last : Z) : Ast.member :=
  {| Ast.is_class_method := true; Ast.m_key := Some name;
     Ast.m_loc := at_line first last; Ast.m_async := false;
     Ast.m_static := false; Ast.m_params := [] |}.

Definition request (m : mode) (qualifier : option string) (ln : option Z)
    (ctx : Z) : params :=
  {| file_path := "/src/a.js"; read_mode := m; target_qualifier := qualifier;
     line := ln; linesAbove := 10; linesBelow := 10; context := true;
     contextLines := ctx; show_calls := false; show_dependencies := false;
     verbose := true |}.

(** ** Files used as examples

    Each file comes with the tree the parser gives for it. Nodes of a type
    without a visitor (the program, declarations lists, identifiers, class
    bodies, blocks) are [OtherNode]s and take no part in the result; the
    trees keep the program node and leave the others out. *)

(** Twelve lines, [l1] to [l12], with a function [f] on lines 6 to 7 *)
Definition twelve_lines : JS.text := JS.units "l1
l2
l3
l4
l5
l6
l7
l8
l9
l10
l11
l12".

Definition function_on_6_7 : Ast.node :=
  Ast.Node Ast.OtherNode (at_line 1 12)
    [Ast.Node (plain_function "f") (at_line 6 7) []].

(** [class C { foo() {} }] on line 1, [function foo() {}] on line 2 *)
Definition class_then_function_text : JS.text := JS.units "class C { foo() {} }
function foo() {}".

Definition top_level_foo : Ast.node :=
  Ast.Node (plain_function "foo") (at_line 2 2) [].

Definition class_with_foo : Ast.node :=
  Ast.Node (Ast.ClassDeclaration (Some "C") None [plain_method "foo" 1 1])
    (at_line 1 1) [Ast.Node Ast.OtherNode (at_line 1 1) []].

Definition class_then_function : Ast.node :=
  Ast.Node Ast.OtherNode (at_line 1 2) [class_with_foo; top_level_foo].









(** An arrow function [f] on lines 1 to 3 whose body declares a function
    [f] on line 2 *)
Definition nested_f_text : JS.text := JS.units "const f = () => {
  function f() {}
};".

Definition nested_f : Ast.node :=
  Ast.Node Ast.OtherNode (at_line 1 3)
    [Ast.Node
       (Ast.VariableDeclarator (Some "f")
          (Ast.ArrowFunctionExpression
             {| Ast.fn_async := false; Ast.fn_id := None; Ast.fn_params := [] |}))
       {| Ast.start_line := 1; Ast.start_column := 6; Ast.end_line := 3 |}
       [Ast.Node (plain_function "f")
          {| Ast.start_line := 2; Ast.start_column := 2; Ast.end_line := 2 |} []]].

(** [class C { m(){} static s(){} async a(){} }] on one line *)
Definition three_methods_text : JS.text :=
  JS.units "class C { m(){} static s(){} async a(){} }".

Definition three_methods : Ast.node :=
  Ast.Node Ast.OtherNode (at_line 1 1)
    [Ast.Node
       (Ast.ClassDeclaration (Some "C") None
          [plain_method "m" 1 1;
           {| Ast.is_class_method := true; Ast.m_key := Some "s";
              Ast.m_loc := at_line 1 1; Ast.m_async := false;
              Ast.m_static := true; Ast.m_params := [] |};
           {| Ast.is_class_method := true; Ast.m_key := Some "a";
              Ast.m_loc := at_line 1 1; Ast.m_async := true;
              Ast.m_static := false; Ast.m_params := [] |}])
       (at_line 1 1) []].

(** [const f = require('x'); import {y} from 'z';] on one line *)
Definition two_imports_text : JS.text :=
  JS.units "const f = require('x'); import {y} from 'z';".

Definition two_imports : Ast.node :=
  Ast.Node Ast.OtherNode (at_line 1 1)
    [Ast.Node (Ast.VariableDeclarator (Some "f") Ast.OtherInit) (at_line 1 1)
       [Ast.Node (Ast.CallExpression (Some "require") [Some "x"]) (at_line 1 1) []];
     Ast.Node (Ast.ImportDeclaration "z" [Ast.ImportSpecifier (Some "y")])
       (at_line 1 1) []].

(** Files on disk *)
Definition accented_file : list byte := [xc3; xa9].

Definition three_line_file : list byte := [x61; x0a; x62; x0a; x63].

Definition disk (bytes : list byte) : file_system := λ _, Some (FileBytes bytes).

Definition syntax_error : js_error :=
  {| message := "Unexpected token (1:5)"; constructor_name := "SyntaxError" |}.

(** Function records named [f] *)
Definition arrow_f (ln : Z) : function_record :=
  {| func_name := "f"; func_line := ln; func_column := 6; func_async := false;
     func_signature := "f = () => {...}"; func_type := arrow_function;
     func_jsdoc := None |}.

Definition declared_f (ln : Z) : function_record :=
  {| func_name := "f"; func_line := ln; func_column := 2; func_async := false;
     func_signature := "function f()"; func_type := function_declaration;
     func_jsdoc := None |}.

(** ** Further notions used to state properties *)

(** What identifies a function record: its name, line and type *)
Definition identity (f : function_record) : string * Z * function_type :=
  (func_name f, func_line f, func_type f).

(** What holds between the [seen] map and the records kept so far while
    the filter runs: every entry is filed under the key of its record,
    which was kept; every kept record still has its key in the map, or is
    a variable-bound record that a nearby declared record in the map has
    replaced; and no two kept records agree on name, line and type. *)
Definition seen_inv (seen : seen_map) (out : list function_record) : Prop :=
  (∀ k v, (k, v) ∈ seen → k = dedup_key v ∧ v ∈ out)
  ∧ (∀ r, r ∈ out →
       (∃ v, (dedup_key r, v) ∈ seen)
       ∨ (func_type r ≠ function_declaration
          ∧ ∃ k d, (k, d) ∈ seen ∧ func_type d = function_declaration
                   ∧ nearby d r = true))
  ∧ NoDup (identity <$> out).

(** The value of a byte as a number *)
Definition byte_value (b : byte) : Z := Z.of_N (Byte.to_N b).

(** A byte of the ASCII range *)
Definition is_ascii_byte (b : byte) : Prop := byte_value b < 128.

(** The name under which the outline would list a node as a function *)
Definition function_name (node : Ast.node) : option string :=
  match Ast.node_kind node with
  | Ast.FunctionDeclaration f => Ast.fn_id f
  | Ast.VariableDeclarator (Some name) init =>
      match function_like init with Some _ => Some name | None => None end
  | _ => None
  end.



(** The path that a failed response reports *)
Definition failure_path (r : result) : option string :=
  match r with
  | Error e => Some (error_file_path e)
  | OutlineFailed f => Some (failure_file_path f)
  | _ => None
  end.


(** Records with three different names *)
Definition named_record (name : string) (ln : Z) (t : function_type) : function_record :=
  {| func_name := name; func_line := ln; func_column := 0; func_async := false;
     func_signature := name; func_type := t; func_jsdoc := None |}.

(** A signature that shows the name and the modifiers of what it renders *)
Definition shows (name : string) (is_async is_static : bool) (signature : string)
    : Prop :=
  JS.includes name signature = true
  ∧ (is_async = true → JS.includes "async " signature = true)
  ∧ (is_static = true → JS.includes "static " signature = true).

(** * Properties *)

(** ** The built-ins on small inputs *)

Example units_of_ascii : JS.units "a:b" = [97; 58; 98].
Proof. reflexivity. Qed.

Example split_trailing_newline :
  JS.split JS.NEWLINE (JS.units "ab
c
") = [JS.units "ab"; JS.units "c"; []].
Proof. reflexivity. Qed.

Example split_empty_text : JS.split JS.NEWLINE [] = [[]].
Proof. reflexivity. Qed.

Example slice_clamps : JS.slice [1; 2; 3] 1 10 = [2; 3].
Proof. reflexivity. Qed.

Example slice_from_the_end : JS.slice [1; 2; 3] (-1) 3 = [3].
Proof. reflexivity. Qed.

Example decode_mixed_bytes :
  JS.utf8_decode [x61; xc3; xa9; xf0; x9f; x98; x80; xff]
  = [97; 233; 55357; 56832; 65533].
Proof. reflexivity. Qed.

Example dedup_key_of_record : dedup_key (arrow_f 12) = "f:12:arrow_function".
Proof. reflexivity. Qed.

Example qualifier_with_class :
  parse_qualifier "class:Shape.area" = ("class", "Shape.area", Some "Shape", "area").
Proof. reflexivity. Qed.

(** ** Splitting, joining and slicing *)
Section Text.
Context `{EqDecision A}.
Implicit Types (sep : A) (s : list A) (ls : list (list A)).

Lemma split_nonempty sep s : JS.split sep s ≠ [].
Proof.
  destruct s as [|c s]; simpl; [done|].
  destruct (decide (c = sep)); [done|].
  by destruct (JS.split sep s).
Qed.

(** Joining what was split gives the text back. *)
Lemma join_split sep s : JS.join sep (JS.split sep s) = s.
Proof.
  induction s as [|c s IH]; simpl; [done|].
  destruct (decide (c = sep)) as [->|Hne].
  - pose proof (split_nonempty sep s) as Hs.
    destruct (JS.split sep s) as [|l ls] eqn:E; [done|].
    simpl in *. by rewrite IH.
  - pose proof (split_nonempty sep s) as Hs.
    destruct (JS.split sep s) as [|l ls] eqn:E; [done|].
    destruct ls as [|l' ls]; simpl in *; by rewrite <- IH.
Qed.

(** A text has one more line than it has separators. *)
Lemma length_split sep s :
  length (JS.split sep s) = S (length (filter (λ x, x = sep) s)).
Proof.
  induction s as [|c s IH]; simpl; [done|].
  rewrite filter_cons.
  destruct (decide (c = sep)); simpl; [by rewrite IH|].
  pose proof (split_nonempty sep s) as Hs.
  destruct (JS.split sep s) as [|l ls] eqn:E; [done|].
  simpl in *. done.
Qed.

Lemma split_no_sep sep s : sep ∉ s → JS.split sep s = [s].
Proof.
  induction s as [|c s IH]; simpl; [done|].
  intros Hnot. apply not_elem_of_cons in Hnot as [Hne Hnot].
  destruct (decide (c = sep)); [congruence|].
  by rewrite IH.
Qed.

Lemma split_app_sep sep s1 s2 :
  sep ∉ s1 → JS.split sep (s1 ++ sep :: s2) = s1 :: JS.split sep s2.
Proof.
  induction s1 as [|c s1 IH]; simpl.
  - intros _. by destruct (decide (sep = sep)).
  - intros Hnot. apply not_elem_of_cons in Hnot as [Hne Hnot].
    destruct (decide (c = sep)); [congruence|].
    by rewrite IH.
Qed.

Lemma join_app sep ls1 ls2 :
  ls1 ≠ [] → ls2 ≠ [] →
  JS.join sep (ls1 ++ ls2) = JS.join sep ls1 ++ sep :: JS.join sep ls2.
Proof.
  intros H1 H2. induction ls1 as [|l ls1 IH]; [done|].
  destruct ls1 as [|l' ls1].
  - simpl. by destruct ls2.
  - change (JS.join sep ((l :: l' :: ls1) ++ ls2))
      with (l ++ sep :: JS.join sep ((l' :: ls1) ++ ls2)).
    rewrite IH by done. simpl. by rewrite <- app_assoc.
Qed.

End Text.

Lemma substring_refl (s : JS.text) : substring s s.
Proof. exists [], []. by rewrite app_nil_r. Qed.

Lemma substring_trans (s t u : JS.text) :
  substring s t → substring t u → substring s u.
Proof.
  intros (p & q & ->) (p' & q' & ->).
  exists (p' ++ p), (q ++ q'). by rewrite <- !app_assoc.
Qed.

Lemma substring_nil (t : JS.text) : substring [] t.
Proof. by exists [], t. Qed.

Lemma substring_join_l (ls1 ls2 : list JS.text) :
  substring (JS.join JS.NEWLINE ls1) (JS.join JS.NEWLINE (ls1 ++ ls2)).
Proof.
  destruct ls1 as [|l ls1]; [apply substring_nil|].
  destruct ls2 as [|l2 ls2]; [rewrite app_nil_r; apply substring_refl|].
  rewrite join_app by done.
  exists [], (JS.NEWLINE :: JS.join JS.NEWLINE (l2 :: ls2)). done.
Qed.

Lemma substring_join_r (ls1 ls2 : list JS.text) :
  substring (JS.join JS.NEWLINE ls2) (JS.join JS.NEWLINE (ls1 ++ ls2)).
Proof.
  destruct ls2 as [|l ls2]; [apply substring_nil|].
  destruct ls1 as [|l1 ls1]; [apply substring_refl|].
  rewrite join_app by done.
  exists (JS.join JS.NEWLINE (l1 :: ls1) ++ [JS.NEWLINE]), [].
  by rewrite app_nil_r, <- app_assoc.
Qed.

(** A run of consecutive lines, joined, occurs in the joined file. *)
Lemma substring_join_run (lines : list JS.text) (i n : nat) :
  substring (JS.join JS.NEWLINE (take n (drop i lines))) (JS.join JS.NEWLINE lines).
Proof.
  rewrite <- (take_drop i lines) at 2.
  eapply substring_trans; [|apply substring_join_r].
  rewrite <- (take_drop n (drop i lines)) at 2.
  apply substring_join_l.
Qed.

(** A slice whose bounds lie in the array takes no detour through the
    clamping or the from-the-end rule. *)
Lemma slice_in_range {A} (arr : list A) (s e : Z) :
  0 ≤ s → 0 ≤ e ≤ Z.of_nat (length arr) →
  JS.slice arr s e = take (Z.to_nat (e - s)) (drop (Z.to_nat s) arr).
Proof.
  intros Hs He. unfold JS.slice, JS.rel_index.
  destruct (Z.ltb_spec s 0); [lia|]. destruct (Z.ltb_spec e 0); [lia|].
  rewrite (Z.min_l e) by lia.
  destruct (Z.le_gt_cases s (Z.of_nat (length arr))).
  - by rewrite Z.min_l by lia.
  - rewrite Z.min_r by lia.
    replace (Z.to_nat (e - Z.of_nat (length arr))) with 0%nat by lia.
    replace (Z.to_nat (e - s)) with 0%nat by lia. done.
Qed.

Lemma line_range_empty (lines : list JS.text) (a b : Z) :
  b < a → line_range lines a b = [].
Proof. intros. unfold line_range. by rewrite seqZ_nil by lia. Qed.

Lemma line_range_run (lines : list JS.text) (n i : nat) :
  (i + n ≤ length lines)%nat →
  line_range lines (Z.of_nat i + 1) (Z.of_nat (i + n)) = take n (drop i lines).
Proof.
  revert i. induction n as [|n IH]; intros i Hlen.
  - rewrite line_range_empty by lia. done.
  - destruct (lookup_lt_is_Some_2 lines i) as [x Hx]; [lia|].
    unfold line_range. rewrite seqZ_cons by lia. simpl.
    unfold JS.index at 1. destruct (Z.ltb_spec (Z.of_nat i + 1 - 1) 0); [lia|].
    replace (Z.to_nat (Z.of_nat i + 1 - 1)) with i by lia.
    rewrite Hx. simpl.
    rewrite (drop_S _ _ _ Hx). simpl. f_equal.
    specialize (IH (S i)). unfold line_range in IH.
    replace (Z.succ (Z.of_nat i + 1)) with (Z.of_nat (S i) + 1) by lia.
    replace (Z.pred (Z.of_nat (i + S n) - (Z.of_nat i + 1) + 1))
      with (Z.of_nat (S i + n) - (Z.of_nat (S i) + 1) + 1) by lia.
    apply IH. lia.
Qed.

(** The slice from index [s] to index [e] holds the lines [s + 1 .. e], as
    far as the file reaches. *)
Lemma slice_line_range (lines : list JS.text) (s e : Z) :
  0 ≤ s → 0 ≤ e →
  JS.slice lines s e = line_range lines (s + 1) (Z.min e (Z.of_nat (length lines))).
Proof.
  intros Hs He. set (len := Z.of_nat (length lines)).
  assert (JS.slice lines s e = JS.slice lines s (Z.min e len)) as ->.
  { unfold JS.slice, JS.rel_index. fold len.
    destruct (Z.ltb_spec e 0); [lia|]. destruct (Z.ltb_spec (Z.min e len) 0); [lia|].
    by rewrite Z.min_l with (n := Z.min e len) by lia. }
  rewrite slice_in_range by (fold len; lia).
  destruct (Z.le_gt_cases s (Z.min e len)) as [Hse|Hse].
  - pose proof (line_range_run lines (Z.to_nat (Z.min e len - s)) (Z.to_nat s)) as H.
    rewrite <- H by (unfold len in *; lia). f_equal; lia.
  - rewrite line_range_empty by lia.
    by replace (Z.to_nat (Z.min e len - s)) with 0%nat by lia.
Qed.



(** Between 1 and the length of the file every numbered line exists. *)
Lemma line_range_length (lines : list JS.text) (a b : Z) :
  1 ≤ a → b ≤ Z.of_nat (length lines) →
  Z.of_nat (length (line_range lines a b)) = Z.max 0 (b - a + 1).
Proof.
  intros Ha Hb. destruct (Z.le_gt_cases a b) as [Hab|Hab].
  - pose proof (line_range_run lines (Z.to_nat (b - a + 1)) (Z.to_nat (a - 1))) as H.
    replace (Z.of_nat (Z.to_nat (a - 1)) + 1) with a in H by lia.
    replace (Z.of_nat (Z.to_nat (a - 1) + Z.to_nat (b - a + 1))) with b in H by lia.
    rewrite H by lia. rewrite length_take, length_drop. lia.
  - rewrite line_range_empty by lia. simpl. lia.
Qed.

(** ** The deduplicator *)

(** A record that the filter drops leaves the [seen] map as it was. *)
Lemma dedup_step_dropped (seen : seen_map) (func : function_record) :
  (dedup_step seen func).1 = false → (dedup_step seen func).2 = seen.
Proof.
  unfold dedup_step.
  destruct (map_has _ seen); [done|].
  destruct (List.find _ seen) as [[k ex]|]; [|done].
  by destruct (is_declaration func && negb (is_declaration ex)).
Qed.

(** C8. Deduplicating an already deduplicated list of function records
    changes nothing: [deduplicateFunctions] is idempotent. *)
Theorem deduplicateFunctions_idempotent (l : list function_record) :
  deduplicateFunctions (deduplicateFunctions l) = deduplicateFunctions l.
Proof.
  unfold deduplicateFunctions. generalize ([] : seen_map).
  induction l as [|func l IH]; intros seen; [done|].
  simpl. destruct (dedup_step seen func) as [keep seen'] eqn:Hstep.
  destruct keep.
  - (* kept: the second run meets [func] with the same map and keeps it *)
    simpl. rewrite Hstep. by rewrite IH.
  - (* dropped: the map is unchanged, so the rest is filtered as before *)
    pose proof (dedup_step_dropped seen func) as Hsame.
    rewrite Hstep in Hsame. simpl in Hsame. rewrite Hsame by done. apply IH.
Qed.

(** The filter keeps records in their order and adds none. *)
Lemma dedup_from_sublist (l : list function_record) :
  ∀ seen, sublist (dedup_from seen l) l.
Proof.
  induction l as [|func l IH]; intros seen; [done|].
  simpl. destruct (dedup_step seen func) as [[] seen'].
  - by apply sublist_skip.
  - by apply sublist_cons.
Qed.

(** When the declared record comes first, the variable-bound record of the
    same entity is dropped. *)
Example dedup_declared_first :
  deduplicateFunctions [declared_f 1; arrow_f 2] = [declared_f 1].
Proof. vm_compute. reflexivity. Qed.

(** Records of one name more than two lines apart are both kept. *)
Example dedup_far_apart :
  deduplicateFunctions [arrow_f 1; arrow_f 4] = [arrow_f 1; arrow_f 4].
Proof. vm_compute. reflexivity. Qed.

(** Of two variable-bound records of one entity the first survives. *)
Example dedup_first_seen :
  deduplicateFunctions [arrow_f 1; arrow_f 3] = [arrow_f 1].
Proof. vm_compute. reflexivity. Qed.

(** C2. At the list "variable-bound f at line 1, declared f at line 2" the
    deduplicator keeps both records: the filter had already accepted the
    variable-bound record when the declared one replaced it in the [seen]
    map, so the variable-bound record is not removed from the output. The
    outline of an arrow function [f] whose body declares a function [f] on
    the next line is such a list. *)
Theorem dedup_keeps_variable_bound_seen_first :
  deduplicateFunctions [arrow_f 1; declared_f 2] = [arrow_f 1; declared_f 2]
  ∧ dedup_step [(dedup_key (arrow_f 1), arrow_f 1)] (declared_f 2)
    = (true, [(dedup_key (declared_f 2), declared_f 2)])
  ∧ ∃ o, readOutline (env := fixture (inr nested_f))
           (request OutlineMode None None 5) nested_f_text "javascript" = Outline o
         ∧ functions (outline_structure o) = [arrow_f 1; declared_f 2].
Proof.
  split; [vm_compute; reflexivity|]. split; [vm_compute; reflexivity|].
  eexists. split; [vm_compute; reflexivity|]. reflexivity.
Qed.

(** ** Full, lines and outline modes *)
Section Modes.
Context {env : Env}.

Lemma execute_full (fs : file_system) (p : params) (bytes : list byte) :
  fs (file_path p) = Some (FileBytes bytes) → read_mode p = FullMode →
  execute fs p = readFull (file_path p) (JS.utf8_decode bytes).
Proof. intros Hfs Hmode. unfold execute. by rewrite Hfs, Hmode. Qed.

(** Full mode hands the text back unchanged, counts one line more than
    there are newlines, and reports the number of code units of the text. *)
Lemma readFull_fields (filePath : string) (content : JS.text) :
  readFull filePath content =
    Full {| full_file_path := filePath;
            line_count := 1 + Z.of_nat (occurrences JS.NEWLINE content);
            size_bytes := Z.of_nat (length content);
            full_content := content |}.
Proof.
  unfold readFull, occurrences. do 2 f_equal.
  rewrite length_split. lia.
Qed.

Lemma execute_lines (fs : file_system) (p : params) (bytes : list byte) (n : Z) :
  fs (file_path p) = Some (FileBytes bytes) → read_mode p = LinesMode →
  line p = Some n → n ≠ 0 →
  execute fs p = readLines p n (JS.utf8_decode bytes).
Proof.
  intros Hfs Hmode Hline Hn. unfold execute. rewrite Hfs, Hmode, Hline.
  by destruct (Z.eqb_spec n 0).
Qed.

Lemma readLines_out_of_range (p : params) (n : Z) (content : JS.text) :
  n < 1 ∨ Z.of_nat (length (JS.split JS.NEWLINE content)) < n →
  error_kind (readLines p n content) = Some "LINE_OUT_OF_RANGE".
Proof.
  intros Hn. unfold readLines.
  destruct (Z.ltb_spec n 1), (Z.ltb_spec (Z.of_nat (length (JS.split JS.NEWLINE content))) n);
    simpl; try done; lia.
Qed.

Lemma readLines_in_range (p : params) (n : Z) (content : JS.text) :
  let lines := JS.split JS.NEWLINE content in
  let len := Z.of_nat (length lines) in
  let first := Z.max 1 (n - JS.or_num (linesAbove p) 10) in
  let last := Z.min len (n + JS.or_num (linesBelow p) 10) in
  1 ≤ n ≤ len →
  ∃ r, readLines p n content = Lines r
       ∧ target_line r = n ∧ start_line r = first ∧ end_line r = last
       ∧ total_lines r = len
       ∧ lines_above r = n - first ∧ lines_below r = last - n
       ∧ lines_content r = JS.join JS.NEWLINE (JS.slice lines (first - 1) last).
Proof.
  intros lines len first last Hn. unfold readLines.
  fold lines. fold len.
  destruct (Z.ltb_spec n 1); [lia|]. destruct (Z.ltb_spec len n); [lia|].
  simpl. eexists. split; [reflexivity|]. simpl. done.
Qed.

(** C5 (amended). In lines mode on an existing file of L lines: a request
    without a target line gets MISSING_LINE; a request with a non-zero
    target line n gets LINE_OUT_OF_RANGE exactly when n < 1 or n > L and
    never MISSING_LINE; and for 1 <= n <= L it succeeds and reports the
    bounds it used, which for positive counts of lines above and below are
    max(1, n - above) and min(L, n + below), with the lines between these
    bounds as content. *)
Theorem lines_mode_outcomes (fs : file_system) (p : params) (bytes : list byte) :
  fs (file_path p) = Some (FileBytes bytes) → read_mode p = LinesMode →
  let lines := JS.split JS.NEWLINE (JS.utf8_decode bytes) in
  let L := Z.of_nat (length lines) in
  (line p = None → error_kind (execute fs p) = Some "MISSING_LINE")
  ∧ (∀ n, line p = Some n → n ≠ 0 →
       (error_kind (execute fs p) = Some "LINE_OUT_OF_RANGE" ↔ n < 1 ∨ L < n)
       ∧ error_kind (execute fs p) ≠ Some "MISSING_LINE"
       ∧ (1 ≤ n ≤ L →
          ∃ r, execute fs p = Lines r
               ∧ target_line r = n ∧ total_lines r = L
               ∧ lines_above r = n - start_line r
               ∧ lines_below r = end_line r - n
               ∧ (0 < linesAbove p → 0 < linesBelow p →
                  start_line r = Z.max 1 (n - linesAbove p)
                  ∧ end_line r = Z.min L (n + linesBelow p)
                  ∧ 1 ≤ start_line r ≤ n ∧ n ≤ end_line r ≤ L
                  ∧ lines_content r =
                      JS.join JS.NEWLINE (line_range lines (start_line r) (end_line r))))).
Proof.
  intros Hfs Hmode lines L. split.
  - intros Hline. unfold execute. by rewrite Hfs, Hmode, Hline.
  - intros n Hline Hn. rewrite (execute_lines fs p bytes n) by done.
    destruct (Z.lt_ge_cases n 1) as [Hlow|Hlow];
      [|destruct (Z.lt_ge_cases L n) as [Hhigh|Hhigh]].
    + rewrite readLines_out_of_range by (left; done).
      split; [split; [by left | done]|]. split; [done | lia].
    + rewrite readLines_out_of_range by (right; done).
      split; [split; [by right | done]|]. split; [done | lia].
    + destruct (readLines_in_range p n (JS.utf8_decode bytes))
        as (r & Hr & Ht & Hs & He & Htot & Ha & Hb & Hc); [done|].
      fold lines in Hs, He, Htot, Ha, Hb, Hc. fold L in Hs, He, Htot, Ha, Hb, Hc.
      rewrite Hr. simpl. split; [split; [done | lia]|]. split; [done|].
      intros _. exists r. split; [done|].
      split; [done|]. split; [done|].
      split; [by rewrite Ha, Hs|]. split; [by rewrite Hb, He|].
      intros Habove Hbelow.
      assert (JS.or_num (linesAbove p) 10 = linesAbove p) as Hor1
        by (unfold JS.or_num; destruct (Z.eqb_spec (linesAbove p) 0); lia).
      assert (JS.or_num (linesBelow p) 10 = linesBelow p) as Hor2
        by (unfold JS.or_num; destruct (Z.eqb_spec (linesBelow p) 0); lia).
      rewrite Hor1 in Hs. rewrite Hor2 in He. rewrite Hor1, Hor2 in Hc.
      rewrite Hs, He. split; [done|]. split; [done|]. split; [lia|]. split; [lia|].
      rewrite Hc. f_equal.
      rewrite slice_line_range by lia. fold L.
      f_equal; lia.
Qed.

Lemma getHelpfulHint_nonempty (e : js_error) : getHelpfulHint e ≠ "".
Proof. unfold getHelpfulHint. repeat case_match; done. Qed.

(** C4. When the text of a file fails to parse, outline mode answers
    with success = false, the error's kind and message, a hint, and a
    degraded structure whose four lists are empty; the answer is not a
    successful outline. *)
Theorem outline_parse_failure (fs : file_system) (p : params)
    (bytes : list byte) (e : js_error) :
  fs (file_path p) = Some (FileBytes bytes) → read_mode p = OutlineMode →
  parse outline_plugins (JS.utf8_decode bytes) = inl e →
  success (execute fs p) = false
  ∧ (∀ o, execute fs p ≠ Outline o)
  ∧ ∃ f, execute fs p = OutlineFailed f
         ∧ failure_error_type f = constructor_name e
         ∧ failure_error f =
             "Failed to parse file: " +:+ JS.or_str (message e) "Unknown error"
         ∧ failure_hint f ≠ ""
         ∧ functions (partial_structure f) = []
         ∧ classes (partial_structure f) = []
         ∧ imports (partial_structure f) = []
         ∧ exports (partial_structure f) = [].
Proof.
  intros Hfs Hmode Hparse. unfold execute. rewrite Hfs, Hmode.
  unfold readOutline. rewrite Hparse.
  split; [done|]. split; [done|].
  eexists. split; [reflexivity|]. simpl.
  repeat (split; [done|]). split; [|done].
  case_match; [done | apply getHelpfulHint_nonempty].
Qed.

End Modes.

(** ** Range extraction in target mode *)

(** What [extractCode] slices, in line numbers: the code is the lines
    [first .. last]; with context enabled the text before is the lines
    [max(1, first - ctx + 1) .. first - 1] and the text after is the lines
    [last + 1 .. min(len, last + ctx)]; each run ends with the file where
    the file is shorter. *)
Lemma extractCode_slices (p : params) (lines : list JS.text) (ctx first last : Z)
    (targetType targetName : string) (className : option string) :
  let len := Z.of_nat (length lines) in
  let r := extractCode p lines ctx first last targetType targetName className in
  1 ≤ first ≤ last → 0 ≤ ctx →
  code r = JS.join JS.NEWLINE (line_range lines first (Z.min last len))
  ∧ context_before r =
      (if context p
       then JS.join JS.NEWLINE
              (line_range lines (Z.max 1 (first - ctx + 1)) (Z.min (first - 1) len))
       else [])
  ∧ context_after r =
      (if context p
       then JS.join JS.NEWLINE (line_range lines (last + 1) (Z.min len (last + ctx)))
       else []).
Proof.
  intros len r Hfirst Hctx. unfold r, extractCode. simpl. fold len.
  split; [|split].
  - rewrite slice_line_range by lia. fold len. do 2 f_equal. lia.
  - destruct (context p); [|done].
    rewrite slice_line_range by lia. fold len. do 2 f_equal. lia.
  - destruct (context p); [|done].
    rewrite slice_line_range by lia. fold len. do 2 f_equal. lia.
Qed.

(** C6. For a node spanning the lines [first .. last] and every
    contextLines value k >= 0, the code slice and both context slices are
    runs of lines whose numbers lie between 1 and the number of lines of
    the file, and every numbered line of each run exists: no slice reaches
    before line 1 or past the last line, however large k is. *)
Theorem extraction_within_file (p : params) (lines : list JS.text) (k first last : Z)
    (targetType targetName : string) (className : option string) :
  let len := Z.of_nat (length lines) in
  let N := JS.or_num k 5 in
  let r := extractCode p lines N first last targetType targetName className in
  let code_end := Z.min last len in
  let a := Z.max 1 (first - N + 1) in
  let before_end := Z.min (first - 1) len in
  let b := Z.min len (last + N) in
  1 ≤ first ≤ last → 0 ≤ k →
  (1 ≤ first ∧ code_end ≤ len
   ∧ code r = JS.join JS.NEWLINE (line_range lines first code_end)
   ∧ Z.of_nat (length (line_range lines first code_end)) = Z.max 0 (code_end - first + 1))
  ∧ (1 ≤ a ∧ before_end ≤ len
     ∧ context_before r =
         (if context p then JS.join JS.NEWLINE (line_range lines a before_end) else [])
     ∧ Z.of_nat (length (line_range lines a before_end)) = Z.max 0 (before_end - a + 1))
  ∧ (1 ≤ last + 1 ∧ b ≤ len
     ∧ context_after r =
         (if context p then JS.join JS.NEWLINE (line_range lines (last + 1) b) else [])
     ∧ Z.of_nat (length (line_range lines (last + 1) b)) = Z.max 0 (b - last)).
Proof.
  intros len N r code_end a before_end b Hfirst Hk.
  assert (1 ≤ N) as HN by (unfold N, JS.or_num; case_match; lia).
  destruct (extractCode_slices p lines N first last targetType targetName className)
    as (Hcode & Hbefore & Hafter); [lia..|].
  split; [|split].
  - split; [lia|]. split; [unfold code_end; lia|]. split; [done|].
    apply line_range_length; unfold code_end, len; lia.
  - split; [unfold a; lia|]. split; [unfold before_end; lia|]. split; [done|].
    apply line_range_length; unfold a, before_end, len; lia.
  - split; [lia|]. split; [unfold b; lia|]. split; [done|].
    rewrite line_range_length by (unfold b, len; lia). lia.
Qed.


(** ** Resolving a qualifier *)

Lemma includes_char_absent (c : ascii) (s : string) :
  c ∉ list_ascii_of_string s → JS.includes (String c "") s = false.
Proof.
  induction s as [|a s IH]; simpl; [done|].
  intros Hnot. apply not_elem_of_cons in Hnot as [Hne Hnot].
  destruct (ascii_dec c a); [done|]. simpl. by apply IH.
Qed.

Lemma split_str_single (sep : ascii) (s : string) :
  sep ∉ list_ascii_of_string s → JS.split_str sep s = [s].
Proof.
  intros Hnot. unfold JS.split_str. rewrite split_no_sep by done.
  simpl. by rewrite string_of_list_ascii_of_string.
Qed.

(** [function:name] names the target type [function], no class, and the
    target [name]. *)
Lemma parse_qualifier_function (name : string) :
  ":"%char ∉ list_ascii_of_string name → "."%char ∉ list_ascii_of_string name →
  parse_qualifier ("function:" +:+ name) = ("function", name, None, name).
Proof.
  intros Hcolon Hdot. unfold parse_qualifier, JS.split_str.
  change (list_ascii_of_string ("function:" +:+ name))
    with (list_ascii_of_string "function" ++ ":"%char :: list_ascii_of_string name).
  rewrite split_app_sep by (apply (bool_decide_unpack _); by vm_compute).
  rewrite split_no_sep by done. simpl.
  rewrite string_of_list_ascii_of_string.
  by rewrite includes_char_absent.
Qed.


Lemma first_hit_none {A B} (visit : A → option B) (l : list A) :
  (∀ y, y ∈ l → visit y = None) → first_hit visit l = None.
Proof.
  induction l as [|y l IH]; intros Hl; [done|].
  simpl. rewrite Hl by left. apply IH. intros z Hz. apply Hl. by right.
Qed.

(** What the visitors do for the target type [function] without a class
    name, node by node. *)
Lemma visit_function_miss (p : params) (lines : list JS.text) (ctx : Z)
    (name : string) (node : Ast.node) :
  declares_function name node = false → method_in_class name node = None →
  visit_target p lines ctx "function" name None node = None.
Proof.
  unfold declares_function, method_in_class, visit_target.
  destruct node as [k l children]. simpl.
  destruct k; simpl; try done.
  - by intros -> _.
  - intros Hdecl _. by rewrite Hdecl.
  - by intros _ ->.
Qed.

Lemma visit_function_declared (p : params) (lines : list JS.text) (ctx : Z)
    (name : string) (node : Ast.node) :
  declares_function name node = true →
  visit_target p lines ctx "function" name None node =
    Some (extractCode p lines ctx (Ast.start_of (Ast.node_loc node))
            (Ast.end_of (Ast.node_loc node)) "function" name None).
Proof.
  unfold declares_function, visit_target.
  destruct node as [k l children]. simpl.
  destruct k; simpl; try done.
  - by intros ->.
  - intros Hdecl. by rewrite Hdecl.
Qed.

Lemma visit_function_method (p : params) (lines : list JS.text) (ctx : Z)
    (name : string) (node : Ast.node) (m : Ast.member) :
  method_in_class name node = Some m →
  visit_target p lines ctx "function" name None node =
    Some (extractCode p lines ctx (Ast.start_of (Ast.m_loc m))
            (Ast.end_of (Ast.m_loc m)) "method" name (class_id node)).
Proof.
  unfold method_in_class, class_id, visit_target.
  destruct node as [k l children]. simpl.
  destruct k; simpl; try done.
  by intros ->.
Qed.

(** Every hit of a visitor is an [extractCode] of a location in the tree. *)
Lemma visit_target_extracts (p : params) (lines : list JS.text) (ctx : Z)
    (targetType targetName : string) (className : option string)
    (node : Ast.node) (r : target_result) :
  visit_target p lines ctx targetType targetName className node = Some r →
  ∃ (l : Ast.loc) (kind : string) (cls : option string),
    r = extractCode p lines ctx (Ast.start_of l) (Ast.end_of l) kind targetName cls.
Proof.
  unfold visit_target. destruct node as [k l children]. simpl.
  destruct k; try done.
  - case_match; [|done]. intros [= <-]. by eexists _, _, _.
  - case_match; [|done]. intros [= <-]. by eexists _, _, _.
  - repeat case_match; try done; intros [= <-]; by eexists _, _, _.
Qed.

Lemma first_hit_some {A B} (visit : A → option B) (l : list A) (r : B) :
  first_hit visit l = Some r → ∃ x, x ∈ l ∧ visit x = Some r.
Proof.
  induction l as [|y l IH]; [done|]. simpl.
  destruct (visit y) as [r'|] eqn:Hy.
  - intros [= <-]. exists y. split; [left | done].
  - intros (x & Hx & Hr)%IH. exists x. split; [by right | done].
Qed.

Section Target.
Context {env : Env}.

Lemma readTarget_function (p : params) (name : string) (content : JS.text)
    (lang : string) (ast : Ast.node) :
  ":"%char ∉ list_ascii_of_string name → "."%char ∉ list_ascii_of_string name →
  parse target_plugins content = inr ast →
  readTarget p ("function:" +:+ name) content lang =
    match find_target p content ast "function" name None with
    | Some r => Target (summarise p r)
    | None =>
        createError ("function '" +:+ name +:+ "' not found in file")
          "TARGET_NOT_FOUND" (file_path p) (read_mode p)
          (Some (not_found_hint "function" name None))
    end.
Proof.
  intros Hcolon Hdot Hparse. unfold readTarget.
  rewrite parse_qualifier_function by done. simpl.
  by rewrite Hparse.
Qed.

(** A successful target extraction is [extractCode] at the location of a
    node or class member, with the file's lines and [contextLines || 5]. *)
Lemma readTarget_extracts (p : params) (qualifier : string) (content : JS.text)
    (lang : string) (r : target_result) :
  readTarget p qualifier content lang = Target r →
  ∃ (l : Ast.loc) (kind name : string) (cls : option string),
    r = summarise p
          (extractCode p (JS.split JS.NEWLINE content) (JS.or_num (contextLines p) 5)
             (Ast.start_of l) (Ast.end_of l) kind name cls).
Proof.
  unfold readTarget.
  destruct (parse_qualifier qualifier) as [[[targetType targetPath] className] targetName].
  assert (∀ o, readOutline p content lang = Target o → False) as Hout.
  { intros o. unfold readOutline. by destruct (parse outline_plugins content). }
  case_match.
  { destruct (readOutline p content lang) eqn:E; try done. intros [= <-]. by destruct (Hout r0). }
  case_match.
  { destruct (readOutline p content lang) eqn:E; try done. intros [= <-]. by destruct (Hout r0). }
  destruct (parse target_plugins content) as [e|ast]; [done|].
  destruct (find_target p content ast targetType targetName className) as [r'|] eqn:Hfind;
    [|done].
  intros [= <-]. unfold find_target in Hfind.
  apply first_hit_some in Hfind as (x & _ & Hx).
  apply visit_target_extracts in Hx as (l & kind & cls & ->).
  by exists l, kind, targetName, cls.
Qed.


(** Without any such node the answer is TARGET_NOT_FOUND. *)
Lemma function_qualifier_not_found (p : params) (name : string)
    (content : JS.text) (lang : string) (ast : Ast.node) :
  ":"%char ∉ list_ascii_of_string name → "."%char ∉ list_ascii_of_string name →
  parse target_plugins content = inr ast →
  (∀ x, x ∈ Ast.traversal ast →
     declares_function name x.2 = false ∧ method_in_class name x.2 = None) →
  error_kind (readTarget p ("function:" +:+ name) content lang)
    = Some "TARGET_NOT_FOUND".
Proof.
  intros Hcolon Hdot Hparse Hall.
  rewrite (readTarget_function p name content lang ast) by done.
  unfold find_target. rewrite first_hit_none; [done|].
  intros y Hy. destruct (Hall y Hy). by apply visit_function_miss.
Qed.

End Target.

(** ** Suppression of functions on class lines in the outline *)
Section Outline.
Context {env : Env}.







End Outline.


(** ** The properties on concrete files *)

(** C9. On the two-byte file holding the single character U+00E9, full
    mode succeeds with the text unchanged and one line, and reports
    [size_bytes] 1: the number of UTF-16 code units of the decoded text,
    whereas the file is 2 bytes long. *)
Theorem full_mode_size_of_accented_file (env : Env) :
  execute (disk accented_file) (request FullMode None None 5)
  = Full {| full_file_path := "/src/a.js"; line_count := 1; size_bytes := 1;
            full_content := [233] |}
  ∧ Z.of_nat (length accented_file) = 2.
Proof. split; reflexivity. Qed.

(** On a file of ASCII text the reported size is the byte count. *)
Example full_mode_size_of_ascii_file (env : Env) :
  execute (disk three_line_file) (request FullMode None None 5)
  = Full {| full_file_path := "/src/a.js"; line_count := 3; size_bytes := 5;
            full_content := JS.units "a
b
c" |}.
Proof. reflexivity. Qed.

(** C3. For the function on lines 6 to 7 of a twelve-line file and
    contextLines = 2, the text before is line 5 alone, not lines 4 to 5,
    while the text after is lines 8 to 9; and for contextLines = 0 the
    context is not empty but lines 2 to 5 and lines 8 to 12. *)
Theorem context_before_is_one_line_short :
  (∃ r, readTarget (env := fixture (inr function_on_6_7))
          (request TargetMode (Some "function:f") None 2)
          "function:f" twelve_lines "javascript" = Target r
        ∧ target_start r = 6 ∧ target_end r = 7
        ∧ context_before r = JS.units "l5"
        ∧ context_after r = JS.units "l8
l9")
  ∧ line_range (JS.split JS.NEWLINE twelve_lines) (Z.max 1 (6 - 2)) (6 - 1)
    = [JS.units "l4"; JS.units "l5"]
  ∧ (∃ r, readTarget (env := fixture (inr function_on_6_7))
            (request TargetMode (Some "function:f") None 0)
            "function:f" twelve_lines "javascript" = Target r
          ∧ context_before r = JS.units "l2
l3
l4
l5"
          ∧ context_after r = JS.units "l8
l9
l10
l11
l12").
Proof.
  split; [|split].
  - eexists. split; [vm_compute; reflexivity|]. repeat split.
  - vm_compute. reflexivity.
  - eexists. split; [vm_compute; reflexivity|]. repeat split.
Qed.

(** A class with a plain, a static and an async method: no top-level
    function, one class, three methods with their flags. *)
Example outline_of_class_with_methods :
  ∃ o, readOutline (env := fixture (inr three_methods))
         (request OutlineMode None None 5) three_methods_text "javascript" = Outline o
       ∧ functions (outline_structure o) = []
       ∧ (λ c, (class_name c,
                (λ m, (method_name m, method_static m, method_async m, method_signature m))
                  <$> class_methods c)) <$> classes (outline_structure o)
         = [("C", [("m", false, false, "m()"); ("s", true, false, "static s()");
                   ("a", false, true, "async a()")])]
       ∧ imports (outline_structure o) = [] ∧ exports (outline_structure o) = [].
Proof. eexists. split; [vm_compute; reflexivity|]. repeat split. Qed.

(** A [require] call and an import declaration both show up as imports. *)
Example outline_of_both_import_styles :
  ∃ o, readOutline (env := fixture (inr two_imports))
         (request OutlineMode None None 5) two_imports_text "javascript" = Outline o
       ∧ (λ i, (import_source i, import_imported i)) <$> imports (outline_structure o)
         = [("x", ["f"]); ("z", ["y"])].
Proof. eexists. split; [vm_compute; reflexivity|]. reflexivity. Qed.

(** A method that no class has: TARGET_NOT_FOUND. *)
Example missing_method_not_found :
  error_kind (readTarget (env := fixture (inr three_methods))
                (request TargetMode (Some "method:missing") None 5)
                "method:missing" three_methods_text "javascript")
  = Some "TARGET_NOT_FOUND".
Proof. reflexivity. Qed.

(** A dotted qualifier selects the method of the named class. *)
Example method_of_named_class :
  ∃ r, readTarget (env := fixture (inr three_methods))
         (request TargetMode (Some "class:C.s") None 5)
         "class:C.s" three_methods_text "javascript" = Target r
       ∧ target_type r = "method" ∧ target_class_name r = Some "C"
       ∧ code r = three_methods_text.
Proof. eexists. split; [vm_compute; reflexivity|]. repeat split. Qed.


(** Counterexample to C5 as stated: the target line -1 on a file of three
    lines gets LINE_OUT_OF_RANGE although it does not exceed the length. *)
Lemma negative_target_line_out_of_range :
  error_kind (execute (env := fixture (inl syntax_error)) (disk three_line_file)
                (request LinesMode None (Some (-1)) 5))
  = Some "LINE_OUT_OF_RANGE"
  ∧ Z.of_nat (length (JS.split JS.NEWLINE (JS.utf8_decode three_line_file))) = 3
  ∧ ¬ (3 < -1).
Proof. split; [reflexivity|]. split; [reflexivity | lia]. Qed.



(** ** The general properties at concrete inputs *)


(** [outline_parse_failure] on a file that the parser rejects *)
Lemma outline_parse_failure_witness :
  success (execute (env := fixture (inl syntax_error)) (disk three_line_file)
             (request OutlineMode None None 5)) = false.
Proof.
  refine (proj1 (outline_parse_failure (env := fixture (inl syntax_error))
    (disk three_line_file) (request OutlineMode None None 5) three_line_file
    syntax_error _ _ _)); reflexivity.
Defined.

(** [lines_mode_outcomes] on a file of three lines: line 9 is out of range. *)
Lemma lines_mode_outcomes_witness :
  error_kind (execute (env := fixture (inl syntax_error)) (disk three_line_file)
                (request LinesMode None (Some 9) 5))
  = Some "LINE_OUT_OF_RANGE".
Proof.
  refine (proj2 (proj1 (proj2 (lines_mode_outcomes (env := fixture (inl syntax_error))
    (disk three_line_file) (request LinesMode None (Some 9) 5) three_line_file
    _ _) 9 _ _)) _).
  - reflexivity.
  - reflexivity.
  - reflexivity.
  - discriminate.
  - right. vm_compute. reflexivity.
Defined.

(** [extraction_within_file] with a context far larger than the file: the
    slices stop at line 1 and at line 12. *)
Lemma extraction_within_file_witness :
  let lines := JS.split JS.NEWLINE twelve_lines in
  let r := extractCode (request TargetMode (Some "function:f") None 1000)
             lines 1000 6 7 "function" "f" None in
  context_before r = JS.join JS.NEWLINE (line_range lines 1 5)
  ∧ context_after r = JS.join JS.NEWLINE (line_range lines 8 12).
Proof.
  intros lines r.
  pose proof (extraction_within_file (request TargetMode (Some "function:f") None 1000)
    lines 1000 6 7 "function" "f" None) as H.
  destruct H as (_ & (_ & _ & Hb & _) & (_ & _ & Ha & _)).
  - lia.
  - lia.
  - split; [exact Hb | exact Ha].
Defined.



(** * Further properties *)

(** ** The key of the deduplicator *)

Lemma list_ascii_of_string_app (s t : string) :
  list_ascii_of_string (s +:+ t) = list_ascii_of_string s ++ list_ascii_of_string t.
Proof. induction s as [|a s IH]; simpl; [done|]. by rewrite IH. Qed.

Lemma list_ascii_of_string_inj (s t : string) :
  list_ascii_of_string s = list_ascii_of_string t → s = t.
Proof.
  intros H. rewrite <- (string_of_list_ascii_of_string s), H.
  apply string_of_list_ascii_of_string.
Qed.

Lemma pretty_N_go_no_colon (x : N) (s : string) :
  ":"%char ∉ list_ascii_of_string s →
  ":"%char ∉ list_ascii_of_string (pretty_N_go x s).
Proof.
  revert s. induction (N.lt_wf_0 x) as [x _ IH]; intros s Hs.
  assert (x = 0 ∨ 0 < x)%N as [->|Hpos] by lia.
  - by rewrite pretty_N_go_0.
  - rewrite pretty_N_go_step by done. apply IH; [by apply N.div_lt|].
    simpl. apply not_elem_of_cons. split; [|done].
    unfold pretty_N_char. by repeat case_match.
Qed.

(** The decimal rendering of a line number holds no colon. *)
Lemma pretty_Z_no_colon (z : Z) : ":"%char ∉ list_ascii_of_string (pretty z).
Proof.
  assert (∀ n : N, ":"%char ∉ list_ascii_of_string (pretty n)) as HN.
  { intros n. unfold pretty, pretty_N. case_decide.
    - apply (bool_decide_unpack _). by vm_compute.
    - apply pretty_N_go_no_colon. apply not_elem_of_nil. }
  destruct z as [|q|q]; unfold pretty, pretty_Z.
  - apply (bool_decide_unpack _). by vm_compute.
  - apply HN.
  - simpl. apply not_elem_of_cons. split; [done | apply HN].
Qed.

Lemma function_type_name_no_colon (t : function_type) :
  ":"%char ∉ list_ascii_of_string (function_type_name t).
Proof. destruct t; apply (bool_decide_unpack _); by vm_compute. Qed.

Lemma function_type_name_inj (t u : function_type) :
  function_type_name t = function_type_name u → t = u.
Proof. by destruct t, u. Qed.

Lemma dedup_key_reversed (f : function_record) :
  reverse (list_ascii_of_string (dedup_key f)) =
    reverse (list_ascii_of_string (function_type_name (func_type f)))
    ++ ":"%char :: reverse (list_ascii_of_string (pretty (func_line f)))
    ++ ":"%char :: reverse (list_ascii_of_string (func_name f)).
Proof.
  unfold dedup_key. rewrite !list_ascii_of_string_app.
  change (list_ascii_of_string ":") with [":"%char].
  rewrite !reverse_app, !reverse_singleton. by rewrite <- !app_assoc.
Qed.

(** Two records have the same key exactly when they agree on name, line
    and type: the type and the line are read back from the end of the
    key, whatever the name holds. *)
Lemma dedup_key_inj (f g : function_record) :
  dedup_key f = dedup_key g → identity f = identity g.
Proof.
  intros Hkey.
  apply (f_equal (λ k, JS.split ":"%char (reverse (list_ascii_of_string k)))) in Hkey.
  simpl in Hkey. rewrite !dedup_key_reversed in Hkey.
  assert (∀ s : string, ":"%char ∉ list_ascii_of_string s →
            ":"%char ∉ reverse (list_ascii_of_string s)) as Hrev.
  { intros s Hs. by rewrite elem_of_reverse. }
  rewrite !split_app_sep in Hkey
    by (apply Hrev; first [apply function_type_name_no_colon | apply pretty_Z_no_colon]).
  injection Hkey as Htype Hline Hname.
  apply (f_equal (JS.join ":"%char)) in Hname. rewrite !join_split in Hname.
  assert (∀ s t : string,
            reverse (list_ascii_of_string s) = reverse (list_ascii_of_string t) → s = t)
    as Hinj.
  { intros s t H. apply list_ascii_of_string_inj.
    rewrite <- (reverse_involutive (list_ascii_of_string s)), H.
    apply reverse_involutive. }
  apply Hinj in Htype, Hline, Hname.
  apply function_type_name_inj in Htype. apply (inj pretty) in Hline.
  unfold identity. by rewrite Htype, Hline, Hname.
Qed.

Lemma dedup_key_identity (f g : function_record) :
  identity f = identity g → dedup_key f = dedup_key g.
Proof. unfold identity, dedup_key. by intros [= -> -> ->]. Qed.

(** ** Invariants of the deduplicator *)

Lemma map_has_true (k : string) (seen : seen_map) :
  map_has k seen = true ↔ ∃ v, (k, v) ∈ seen.
Proof.
  unfold map_has. rewrite bool_decide_eq_true, list_elem_of_fmap. split.
  - intros ([k' v] & -> & Hin). by exists v.
  - intros (v & Hin). by exists (k, v).
Qed.

Lemma map_has_false (k : string) (seen : seen_map) :
  map_has k seen = false ↔ ∀ v, (k, v) ∉ seen.
Proof.
  rewrite <- not_true_iff_false, map_has_true. split.
  - intros Hno v Hin. apply Hno. by exists v.
  - intros Hno (v & Hin). by apply (Hno v).
Qed.

Lemma map_delete_elem (k k' : string) (v : function_record) (seen : seen_map) :
  (k, v) ∈ map_delete k' seen ↔ k ≠ k' ∧ (k, v) ∈ seen.
Proof. unfold map_delete. by rewrite list_elem_of_filter. Qed.

(** A key that is not in the map is appended. *)
Lemma map_set_fresh (k : string) (v : function_record) (seen : seen_map) :
  map_has k seen = false → map_set k v seen = seen ++ [(k, v)].
Proof. unfold map_set. by intros ->. Qed.

Lemma nearby_spec (g f : function_record) :
  nearby g f = true ↔
  func_name g = func_name f ∧ Z.abs (func_line g - func_line f) ≤ 2.
Proof.
  unfold nearby. rewrite andb_true_iff, bool_decide_eq_true, Z.leb_le. done.
Qed.

Lemma nearby_identity (g f f' : function_record) :
  identity f = identity f' → nearby g f = nearby g f'.
Proof. unfold identity, nearby. by intros [= -> -> _]. Qed.

Lemma find_nearby_some (seen : seen_map) (func : function_record)
    (k : string) (e : function_record) :
  List.find (λ x, nearby x.2 func) seen = Some (k, e) →
  (k, e) ∈ seen ∧ nearby e func = true.
Proof. intros [Hin Hnear]%find_some. by rewrite list_elem_of_In. Qed.

Lemma find_nearby_none (seen : seen_map) (func : function_record)
    (k : string) (e : function_record) :
  List.find (λ x, nearby x.2 func) seen = None → (k, e) ∈ seen →
  nearby e func = false.
Proof.
  intros Hnone Hin. apply list_elem_of_In in Hin.
  apply (find_none _ _ Hnone (k, e) Hin).
Qed.

(** The four ways the filter callback can go. *)
Lemma dedup_step_cases (seen : seen_map) (func : function_record) :
  (map_has (dedup_key func) seen = true ∧ dedup_step seen func = (false, seen))
  ∨ (map_has (dedup_key func) seen = false
     ∧ ∃ k e, List.find (λ x, nearby x.2 func) seen = Some (k, e)
              ∧ func_type func = function_declaration
              ∧ func_type e ≠ function_declaration
              ∧ dedup_step seen func
                = (true, map_delete k seen ++ [(dedup_key func, func)]))
  ∨ (map_has (dedup_key func) seen = false
     ∧ (∃ k e, List.find (λ x, nearby x.2 func) seen = Some (k, e))
     ∧ dedup_step seen func = (false, seen))
  ∨ (map_has (dedup_key func) seen = false
     ∧ List.find (λ x, nearby x.2 func) seen = None
     ∧ dedup_step seen func = (true, seen ++ [(dedup_key func, func)])).
Proof.
  unfold dedup_step.
  destruct (map_has (dedup_key func) seen) eqn:Hhas; [by left|]. right.
  destruct (List.find _ seen) as [[k e]|] eqn:Hfind.
  - unfold is_declaration.
    destruct (decide (func_type func = function_declaration)) as [Hf|Hf];
      destruct (decide (func_type e = function_declaration)) as [He|He];
      rewrite ?(bool_decide_eq_true_2 _ Hf), ?(bool_decide_eq_false_2 _ Hf),
        ?(bool_decide_eq_true_2 _ He), ?(bool_decide_eq_false_2 _ He); simpl.
    + right. left. eauto.
    + left. split; [done|]. exists k, e. repeat (split; [done|]).
      rewrite map_set_fresh; [done|].
      apply map_has_false. intros v [_ Hin]%map_delete_elem.
      by apply (proj1 (map_has_false _ _) Hhas v).
    + right. left. eauto.
    + right. left. eauto.
  - right. right. repeat (split; [done|]). by rewrite map_set_fresh.
Qed.

(** One step of the filter keeps the invariant; a dropped record leaves
    the map alone and has a kept record nearby. *)
Lemma dedup_step_inv (seen : seen_map) (out : list function_record)
    (func : function_record) :
  seen_inv seen out →
  (∃ seen', dedup_step seen func = (true, seen') ∧ seen_inv seen' (out ++ [func]))
  ∨ (dedup_step seen func = (false, seen)
     ∧ ∃ g, g ∈ out ∧ nearby g func = true).
Proof.
  intros (Hseen & Hout & Hnodup).
  assert (∀ r, r ∈ out → identity r = identity func →
            map_has (dedup_key func) seen = false →
            (List.find (λ x, nearby x.2 func) seen = None
             ∨ func_type func = function_declaration) → False) as Hfresh.
  { intros r Hr Hid Hhas Hcase.
    destruct (Hout r Hr) as [(v & Hv)|(Hty & k & d & Hd & Hdecl & Hnear)].
    - rewrite (dedup_key_identity _ _ Hid) in Hv.
      by apply (proj1 (map_has_false _ _) Hhas v).
    - destruct Hcase as [Hnone|Hfunc].
      + rewrite (nearby_identity d r func Hid) in Hnear.
        by rewrite (find_nearby_none seen func k d Hnone Hd) in Hnear.
      + apply Hty. unfold identity in Hid. injection Hid as _ _ ->. done. }
  destruct (dedup_step_cases seen func)
    as [[Hhas Hstep]|[(Hhas & k & e & Hfind & Hfunc & He & Hstep)
       |[(Hhas & (k & e & Hfind) & Hstep)|(Hhas & Hfind & Hstep)]]].
  - (* the key is in the map *)
    right. split; [done|]. apply map_has_true in Hhas as (v & Hv).
    destruct (Hseen _ _ Hv) as [Hk Hvout]. exists v. split; [done|].
    apply dedup_key_inj in Hk. rewrite (nearby_identity v func v Hk).
    apply nearby_spec. split; [done|]. replace (func_line v - func_line v) with 0 by lia.
    simpl. lia.
  - (* a declared record replaces a nearby variable-bound one *)
    left. eexists. split; [done|].
    apply find_nearby_some in Hfind as [Hin Hnear].
    destruct (Hseen _ _ Hin) as [Hk _].
    split; [|split].
    + intros k' v [[Hne Hv]%map_delete_elem|Hv%list_elem_of_singleton]%elem_of_app.
      * destruct (Hseen _ _ Hv) as [? ?]. split; [done|]. apply elem_of_app. by left.
      * injection Hv as -> ->. split; [done|]. apply elem_of_app. right. by left.
    + intros r [Hr|Hr%list_elem_of_singleton]%elem_of_app.
      * destruct (Hout r Hr) as [(v & Hv)|(Hty & k' & d & Hd & Hdecl & Hnr)].
        -- destruct (decide (dedup_key r = k)) as [Heq|Hne].
           ++ right. rewrite Hk in Heq. apply dedup_key_inj in Heq.
              split; [unfold identity in Heq; injection Heq as _ _ ->; done|].
              exists (dedup_key func), func. split; [apply elem_of_app; right; by left|].
              split; [done|]. rewrite (nearby_identity func r e Heq).
              apply nearby_spec in Hnear as [Hn Hl]. apply nearby_spec.
              split; [done|]. lia.
           ++ left. exists v. apply elem_of_app. left. by apply map_delete_elem.
        -- right. split; [done|]. exists k', d. split; [|done].
           apply elem_of_app. left. apply map_delete_elem. split; [|done].
           intros ->. destruct (Hseen _ _ Hd) as [Hkd _]. rewrite Hk in Hkd.
           apply dedup_key_inj in Hkd. unfold identity in Hkd.
           injection Hkd as _ _ Hty'. congruence.
      * subst r. left. exists func. apply elem_of_app. right. by left.
    + rewrite fmap_app. apply NoDup_app. split; [done|]. split; [|apply NoDup_singleton].
      intros x (r & -> & Hr)%list_elem_of_fmap Hx%list_elem_of_singleton.
      apply (Hfresh r Hr Hx Hhas). by right.
  - (* a nearby record is in the map and stays *)
    right. split; [done|]. apply find_nearby_some in Hfind as [Hin Hnear].
    destruct (Hseen _ _ Hin) as [_ Heout]. by exists e.
  - (* nothing nearby: the record is new *)
    left. eexists. split; [done|]. split; [|split].
    + intros k v [Hv|Hv%list_elem_of_singleton]%elem_of_app.
      * destruct (Hseen _ _ Hv) as [? ?]. split; [done|]. apply elem_of_app. by left.
      * injection Hv as -> ->. split; [done|]. apply elem_of_app. right. by left.
    + intros r [Hr|Hr%list_elem_of_singleton]%elem_of_app.
      * destruct (Hout r Hr) as [(v & Hv)|(Hty & k & d & Hd & Hdecl & Hnr)].
        -- left. exists v. apply elem_of_app. by left.
        -- right. split; [done|]. exists k, d. split; [|done]. apply elem_of_app. by left.
      * subst r. left. exists func. apply elem_of_app. right. by left.
    + rewrite fmap_app. apply NoDup_app. split; [done|]. split; [|apply NoDup_singleton].
      intros x (r & -> & Hr)%list_elem_of_fmap Hx%list_elem_of_singleton.
      apply (Hfresh r Hr Hx Hhas). by left.
Qed.

Lemma nearby_refl (f : function_record) : nearby f f = true.
Proof.
  apply nearby_spec. split; [done|].
  replace (func_line f - func_line f) with 0 by lia. simpl. lia.
Qed.

(** The invariant carried through the whole filter: the kept records are
    pairwise different, and every record met has a kept record nearby. *)
Lemma dedup_from_inv (l : list function_record) :
  ∀ seen out, seen_inv seen out →
    NoDup (identity <$> (out ++ dedup_from seen l))
    ∧ ∀ f, f ∈ l → ∃ g, g ∈ out ++ dedup_from seen l ∧ nearby g f = true.
Proof.
  induction l as [|func l IH]; intros seen out Hinv.
  - simpl. rewrite app_nil_r. split; [apply Hinv|]. intros f Hf. by apply elem_of_nil in Hf.
  - simpl.
    destruct (dedup_step_inv seen out func Hinv)
      as [(seen' & Hstep & Hinv')|(Hstep & g & Hg & Hnear)]; rewrite Hstep.
    + destruct (IH seen' (out ++ [func]) Hinv') as [Hnodup Hrep].
      rewrite <- app_assoc in Hnodup, Hrep. simpl in Hnodup, Hrep.
      split; [done|]. intros f [->|Hf]%elem_of_cons; [|by apply Hrep].
      exists func. split; [|apply nearby_refl].
      apply elem_of_app. right. by left.
    + destruct (IH seen out Hinv) as [Hnodup Hrep].
      split; [done|]. intros f [->|Hf]%elem_of_cons; [|by apply Hrep].
      exists g. split; [|done]. apply elem_of_app. by left.
Qed.

Lemma seen_inv_empty : seen_inv [] [].
Proof.
  split; [|split].
  - intros k v Hin. by apply elem_of_nil in Hin.
  - intros r Hin. by apply elem_of_nil in Hin.
  - apply NoDup_nil_2.
Qed.

(** X1. The deduplicated list is a sublist of the input: records keep
    their order, none is changed and none is invented. *)
Theorem deduplicated_is_sublist (l : list function_record) :
  sublist (deduplicateFunctions l) l
  ∧ (length (deduplicateFunctions l) ≤ length l)%nat.
Proof.
  assert (sublist (deduplicateFunctions l) l) as Hsub by apply dedup_from_sublist.
  split; [done|]. by apply sublist_length.
Qed.

(** X2. No two records of the deduplicated list agree on name, line and
    type. *)
Theorem deduplicated_records_distinct (l : list function_record) :
  NoDup (identity <$> deduplicateFunctions l).
Proof.
  destruct (dedup_from_inv l [] [] seen_inv_empty) as [Hnodup _]. done.
Qed.

(** X3. Deduplication never loses a function: for every record of the
    input, the output holds a record of the same name at most two lines
    away. *)
Theorem deduplicated_keeps_every_name (l : list function_record)
    (f : function_record) :
  f ∈ l →
  ∃ g, g ∈ deduplicateFunctions l
       ∧ func_name g = func_name f
       ∧ Z.abs (func_line g - func_line f) ≤ 2.
Proof.
  intros Hf. destruct (dedup_from_inv l [] [] seen_inv_empty) as [_ Hrep].
  destruct (Hrep f Hf) as (g & Hg & Hnear). exists g. split; [done|].
  by apply nearby_spec.
Qed.

Lemma dedup_from_distinct_names (l : list function_record) :
  ∀ seen,
    (∀ k v, (k, v) ∈ seen → k = dedup_key v ∧ func_name v ∉ func_name <$> l) →
    NoDup (func_name <$> l) →
    dedup_from seen l = l.
Proof.
  induction l as [|func l IH]; intros seen Hseen Hnames; [done|].
  rewrite fmap_cons in Hnames. apply NoDup_cons in Hnames as [Hhead Hnames].
  simpl.
  assert (∀ k v, (k, v) ∈ seen → func_name v ≠ func_name func) as Hother.
  { intros k v Hin Heq. destruct (Hseen k v Hin) as [_ Hnot].
    apply Hnot. rewrite Heq, fmap_cons. by left. }
  destruct (dedup_step_cases seen func)
    as [[Hhas Hstep]|[(Hhas & k & e & Hfind & _)
       |[(Hhas & (k & e & Hfind) & Hstep)|(Hhas & Hfind & Hstep)]]].
  - apply map_has_true in Hhas as (v & Hv). destruct (Hseen _ _ Hv) as [Hk _].
    apply dedup_key_inj in Hk. unfold identity in Hk. injection Hk as Hname _ _.
    by destruct (Hother _ _ Hv).
  - apply find_nearby_some in Hfind as [Hin [Hname _]%nearby_spec].
    by destruct (Hother _ _ Hin).
  - apply find_nearby_some in Hfind as [Hin [Hname _]%nearby_spec].
    by destruct (Hother _ _ Hin).
  - rewrite Hstep. f_equal. apply IH; [|done].
    intros k v [Hv|Hv%list_elem_of_singleton]%elem_of_app.
    + destruct (Hseen _ _ Hv) as [Hk Hnot]. split; [done|].
      intros Hin. apply Hnot. rewrite fmap_cons. by right.
    + injection Hv as -> ->. done.
Qed.

(** X4. A list of records with pairwise different names passes through
    the deduplicator unchanged. *)
Theorem distinct_names_unchanged (l : list function_record) :
  NoDup (func_name <$> l) → deduplicateFunctions l = l.
Proof.
  intros Hnames. apply dedup_from_distinct_names; [|done].
  intros k v Hin. by apply elem_of_nil in Hin.
Qed.

Lemma deduplicated_keeps_every_name_witness :
  ∃ g, g ∈ deduplicateFunctions [declared_f 1; arrow_f 2]
       ∧ func_name g = func_name (arrow_f 2)
       ∧ Z.abs (func_line g - func_line (arrow_f 2)) ≤ 2.
Proof.
  apply (deduplicated_keeps_every_name [declared_f 1; arrow_f 2] (arrow_f 2)).
  right. left.
Defined.

Lemma distinct_names_unchanged_witness :
  deduplicateFunctions
    [named_record "a" 1 arrow_function; named_record "b" 1 function_declaration;
     named_record "c" 2 function_expression]
  = [named_record "a" 1 arrow_function; named_record "b" 1 function_declaration;
     named_record "c" 2 function_expression].
Proof.
  apply distinct_names_unchanged.
  apply (bool_decide_unpack _). vm_compute. exact I.
Defined.

(** ** Decoding and full mode *)

Lemma utf16_encode_length (cp : Z) : (length (JS.utf16_encode cp) ≤ 2)%nat.
Proof. unfold JS.utf16_encode. case_match; simpl; lia. Qed.

(** A byte that opens a sequence either yields one unit at once or leaves
    a sequence open. *)
Lemma utf8_lead_length (b : Z) :
  (length (JS.utf8_lead b).1
   + (if (JS.bytes_needed (JS.utf8_lead b).2 =? 0)%Z then 0 else 1) = 1)%nat.
Proof.
  unfold JS.utf8_lead. destruct (b <=? 127); [done|].
  destruct ((194 <=? b) && (b <=? 223)); [done|].
  destruct ((224 <=? b) && (b <=? 239)); [done|].
  by destruct ((240 <=? b) && (b <=? 244)).
Qed.

(** Decoding yields at most one unit per byte, counting the byte that
    opened a pending sequence. *)
Lemma utf8_run_length (bs : list byte) :
  ∀ st, (length (JS.utf8_run st bs)
         ≤ length bs + (if (JS.bytes_needed st =? 0)%Z then 0 else 1))%nat.
Proof.
  induction bs as [|x rest IH]; intros st.
  - simpl. case_match; simpl; lia.
  - simpl. set (b := Z.of_N (Byte.to_N x)).
    destruct (JS.bytes_needed st =? 0) eqn:Hneeded.
    + pose proof (utf8_lead_length b) as Hlead.
      destruct (JS.utf8_lead b) as [out st']. simpl in Hlead.
      rewrite length_app. specialize (IH st'). lia.
    + destruct ((JS.lower st <=? b) && (b <=? JS.upper st)).
      * destruct (JS.bytes_seen st + 1 =? JS.bytes_needed st).
        -- rewrite length_app. pose proof (utf16_encode_length
             (Z.lor (Z.shiftl (JS.code_point st) 6) (Z.land b 63))).
           specialize (IH JS.utf8_init). simpl in IH. lia.
        -- match goal with |- (length (JS.utf8_run ?s rest) ≤ _)%nat =>
             specialize (IH s) end.
           simpl in IH. rewrite Hneeded in IH. lia.
      * pose proof (utf8_lead_length b) as Hlead.
        destruct (JS.utf8_lead b) as [out st']. simpl in Hlead.
        simpl. rewrite length_app. specialize (IH st'). lia.
Qed.

(** ASCII bytes decode to themselves. *)
Lemma utf8_decode_ascii (bs : list byte) :
  Forall is_ascii_byte bs → JS.utf8_decode bs = byte_value <$> bs.
Proof.
  unfold JS.utf8_decode. induction 1 as [|x rest Hx _ IH]; [done|].
  simpl. unfold is_ascii_byte, byte_value in Hx. unfold JS.utf8_lead.
  destruct (Z.leb_spec (Z.of_N (Byte.to_N x)) 127); [|lia].
  simpl. by rewrite IH.
Qed.

Section FullMode.
Context {env : Env}.

(** X5. Full mode on an existing file returns the decoded text as it is,
    counts one line more than the text has newline units (so at least one
    line, also for an empty file), and joining the text's lines with
    newlines gives the text back. *)
Theorem full_mode_text_and_lines (fs : file_system) (p : params) (bytes : list byte) :
  fs (file_path p) = Some (FileBytes bytes) → read_mode p = FullMode →
  let content := JS.utf8_decode bytes in
  ∃ r, execute fs p = Full r
       ∧ full_file_path r = file_path p
       ∧ full_content r = content
       ∧ line_count r = 1 + Z.of_nat (occurrences JS.NEWLINE content)
       ∧ 1 ≤ line_count r
       ∧ JS.join JS.NEWLINE (JS.split JS.NEWLINE (full_content r)) = content.
Proof.
  intros Hfs Hmode content.
  rewrite (execute_full fs p bytes Hfs Hmode), readFull_fields.
  eexists. split; [reflexivity|]. simpl.
  repeat (split; [done || lia|]). apply join_split.
Qed.

(** X6. The size that full mode reports never exceeds the number of bytes
    of the file. *)
Theorem full_mode_size_at_most_bytes (fs : file_system) (p : params)
    (bytes : list byte) :
  fs (file_path p) = Some (FileBytes bytes) → read_mode p = FullMode →
  ∃ r, execute fs p = Full r ∧ 0 ≤ size_bytes r ≤ Z.of_nat (length bytes).
Proof.
  intros Hfs Hmode. rewrite (execute_full fs p bytes Hfs Hmode), readFull_fields.
  eexists. split; [reflexivity|]. simpl.
  pose proof (utf8_run_length bytes JS.utf8_init) as Hlen. simpl in Hlen.
  unfold JS.utf8_decode. lia.
Qed.

(** X7. For a file of ASCII bytes only, full mode returns the bytes as the
    text and reports exactly the number of bytes as its size. *)
Theorem full_mode_ascii_file (fs : file_system) (p : params) (bytes : list byte) :
  fs (file_path p) = Some (FileBytes bytes) → read_mode p = FullMode →
  Forall is_ascii_byte bytes →
  ∃ r, execute fs p = Full r
       ∧ full_content r = byte_value <$> bytes
       ∧ size_bytes r = Z.of_nat (length bytes).
Proof.
  intros Hfs Hmode Hascii.
  rewrite (execute_full fs p bytes Hfs Hmode), readFull_fields.
  eexists. split; [reflexivity|]. simpl.
  rewrite (utf8_decode_ascii bytes Hascii). split; [done|].
  by rewrite length_fmap.
Qed.

End FullMode.

Lemma full_mode_text_and_lines_witness :
  ∃ r, execute (env := fixture (inl syntax_error)) (disk three_line_file)
         (request FullMode None None 5) = Full r
       ∧ line_count r = 3.
Proof.
  destruct (full_mode_text_and_lines (env := fixture (inl syntax_error))
    (disk three_line_file) (request FullMode None None 5) three_line_file
    eq_refl eq_refl) as (r & Hr & _ & _ & Hlines & _).
  exists r. split; [exact Hr|]. rewrite Hlines. reflexivity.
Defined.

Lemma full_mode_size_at_most_bytes_witness :
  ∃ r, execute (env := fixture (inl syntax_error)) (disk accented_file)
         (request FullMode None None 5) = Full r
       ∧ 0 ≤ size_bytes r ≤ 2.
Proof.
  exact (full_mode_size_at_most_bytes (env := fixture (inl syntax_error))
    (disk accented_file) (request FullMode None None 5) accented_file
    eq_refl eq_refl).
Defined.

Lemma full_mode_ascii_file_witness :
  ∃ r, execute (env := fixture (inl syntax_error)) (disk three_line_file)
         (request FullMode None None 5) = Full r
       ∧ full_content r = byte_value <$> three_line_file
       ∧ size_bytes r = 5.
Proof.
  apply (full_mode_ascii_file (env := fixture (inl syntax_error))
    (disk three_line_file) (request FullMode None None 5) three_line_file
    eq_refl eq_refl).
  repeat constructor; vm_compute; reflexivity.
Defined.

(** ** Lines mode *)

Section SplitJoin.
Context `{EqDecision A}.

(** No line of a split text holds the separator. *)
Lemma split_lines_no_sep (sep : A) (s : list A) :
  Forall (λ l, sep ∉ l) (JS.split sep s).
Proof.
  induction s as [|c s IH]; simpl.
  - repeat constructor. apply not_elem_of_nil.
  - destruct (decide (c = sep)) as [->|Hne].
    + constructor; [apply not_elem_of_nil | done].
    + destruct (JS.split sep s) as [|l ls].
      * repeat constructor. apply not_elem_of_cons. split; [done | apply not_elem_of_nil].
      * apply Forall_cons in IH as [Hl Hls]. constructor; [|done].
        apply not_elem_of_cons. split; [done | done].
Qed.

(** Splitting what was joined from separator-free lines gives the lines back. *)
Lemma split_join (sep : A) (ls : list (list A)) :
  ls ≠ [] → Forall (λ l, sep ∉ l) ls → JS.split sep (JS.join sep ls) = ls.
Proof.
  induction ls as [|l ls IH]; [done|]. intros _ Hall.
  apply Forall_cons in Hall as [Hl Hls].
  destruct ls as [|l' ls].
  - simpl. by apply split_no_sep.
  - change (JS.join sep (l :: l' :: ls)) with (l ++ sep :: JS.join sep (l' :: ls)).
    rewrite split_app_sep by done. f_equal. by apply IH.
Qed.

End SplitJoin.

Section LinesMode.
Context {env : Env}.

(** X8. Whatever the requested counts, the content that lines mode
    returns is a contiguous piece of the file's text. *)
Theorem lines_mode_content_is_substring (fs : file_system) (p : params)
    (bytes : list byte) (r : lines_result) :
  fs (file_path p) = Some (FileBytes bytes) → read_mode p = LinesMode →
  execute fs p = Lines r →
  substring (lines_content r) (JS.utf8_decode bytes).
Proof.
  intros Hfs Hmode. unfold execute. rewrite Hfs, Hmode.
  destruct (line p) as [n|]; [|done]. destruct (n =? 0); [done|].
  unfold readLines. case_match; [done|]. intros [= <-]. simpl.
  unfold JS.slice.
  match goal with |- substring (JS.join _ (take ?k (drop ?i _))) _ =>
    pose proof (substring_join_run (JS.split JS.NEWLINE (JS.utf8_decode bytes)) i k)
      as Hrun
  end.
  by rewrite join_split in Hrun.
Qed.

(** X9. For a target line n of the file and non-negative counts, splitting
    the returned content at newlines gives exactly the lines start_line to
    end_line of the file; they are lines_above + lines_below + 1 many, and
    the requested line is the one at index lines_above. *)
Theorem lines_mode_content_round_trip (fs : file_system) (p : params)
    (bytes : list byte) (n : Z) :
  let lines := JS.split JS.NEWLINE (JS.utf8_decode bytes) in
  fs (file_path p) = Some (FileBytes bytes) → read_mode p = LinesMode →
  line p = Some n → 1 ≤ n ≤ Z.of_nat (length lines) →
  0 ≤ linesAbove p → 0 ≤ linesBelow p →
  ∃ r, execute fs p = Lines r
       ∧ JS.split JS.NEWLINE (lines_content r)
         = line_range lines (start_line r) (end_line r)
       ∧ Z.of_nat (length (JS.split JS.NEWLINE (lines_content r)))
         = lines_above r + lines_below r + 1
       ∧ JS.split JS.NEWLINE (lines_content r) !! Z.to_nat (lines_above r)
         = lines !! Z.to_nat (n - 1).
Proof.
  intros lines Hfs Hmode Hline Hn Habove Hbelow.
  rewrite (execute_lines fs p bytes n) by (done || lia).
  destruct (readLines_in_range p n (JS.utf8_decode bytes))
    as (r & Hr & _ & Hs & He & _ & Ha & Hb & Hc); [done|].
  fold lines in Hs, He, Ha, Hb, Hc.
  assert (0 ≤ JS.or_num (linesAbove p) 10) by (unfold JS.or_num; case_match; lia).
  assert (0 ≤ JS.or_num (linesBelow p) 10) by (unfold JS.or_num; case_match; lia).
  set (len := Z.of_nat (length lines)) in *.
  assert (1 ≤ start_line r ≤ n ∧ n ≤ end_line r ≤ len) as Hbounds by lia.
  rewrite <- Hs in Ha, Hc. rewrite <- He in Hb, Hc. clear Hs He.
  set (run := JS.slice lines (start_line r - 1) (end_line r)) in *.
  assert (run = take (Z.to_nat (end_line r - start_line r + 1))
                  (drop (Z.to_nat (start_line r - 1)) lines)) as Hrun.
  { unfold run. rewrite slice_in_range by (fold len; lia). f_equal. lia. }
  assert (Z.of_nat (length run) = end_line r - start_line r + 1) as Hlen.
  { rewrite Hrun, length_take, length_drop. unfold len in *. lia. }
  assert (JS.split JS.NEWLINE (lines_content r) = run) as Hsplit.
  { rewrite Hc. apply split_join.
    - intros Hnil. rewrite Hnil in Hlen. simpl in Hlen. lia.
    - rewrite Hrun. apply Forall_take, Forall_drop, split_lines_no_sep. }
  exists r. split; [done|]. rewrite Hsplit. split; [|split].
  - unfold run. rewrite slice_line_range by lia. fold len. f_equal; lia.
  - lia.
  - rewrite Hrun, lookup_take_lt by lia. rewrite lookup_drop. f_equal. lia.
Qed.

End LinesMode.

Lemma lines_mode_content_is_substring_witness :
  substring (JS.units "a
b
c") (JS.utf8_decode three_line_file).
Proof.
  apply (lines_mode_content_is_substring (env := fixture (inl syntax_error))
    (disk three_line_file) (request LinesMode None (Some 2) 5) three_line_file
    {| lines_file_path := "/src/a.js"; target_line := 2; start_line := 1;
       end_line := 3; total_lines := 3; lines_above := 1; lines_below := 1;
       lines_content := JS.units "a
b
c"; lines_summary := None |}); reflexivity.
Defined.

Lemma lines_mode_content_round_trip_witness :
  ∃ r, execute (env := fixture (inl syntax_error)) (disk three_line_file)
         (request LinesMode None (Some 2) 5) = Lines r
       ∧ JS.split JS.NEWLINE (lines_content r) !! Z.to_nat (lines_above r)
         = Some (JS.units "b").
Proof.
  destruct (lines_mode_content_round_trip (env := fixture (inl syntax_error))
    (disk three_line_file) (request LinesMode None (Some 2) 5) three_line_file 2)
    as (r & Hr & _ & _ & Hat).
  - reflexivity.
  - reflexivity.
  - reflexivity.
  - vm_compute. split; discriminate.
  - vm_compute. discriminate.
  - vm_compute. discriminate.
  - exists r. split; [exact Hr|]. rewrite Hat. reflexivity.
Defined.

(** ** Qualifiers of target mode *)

Lemma includes_char_present (c : ascii) (s : string) :
  c ∈ list_ascii_of_string s → JS.includes (String c "") s = true.
Proof.
  induction s as [|a s IH]; simpl; [by intros ?%elem_of_nil|].
  intros [->|Hin]%elem_of_cons.
  - destruct (ascii_dec a a); [|done]. by destruct s.
  - rewrite IH by done. apply orb_true_r.
Qed.

Lemma prefix_append (n s t : string) :
  String.prefix n s = true → String.prefix n (s +:+ t) = true.
Proof.
  revert s. induction n as [|a n IH]; intros s; [intros _; by destruct (s +:+ t)|].
  destruct s as [|b s]; simpl; [done|].
  destruct (ascii_dec a b); [apply IH | done].
Qed.

Lemma includes_cons (n : string) (a : ascii) (s : string) :
  JS.includes n (String a s) = String.prefix n (String a s) || JS.includes n s.
Proof. reflexivity. Qed.

Lemma includes_append_l (n s t : string) :
  JS.includes n s = true → JS.includes n (s +:+ t) = true.
Proof.
  induction s as [|a s IH].
  - destruct n as [|b n]; [|done]. intros _. by destruct t.
  - rewrite includes_cons. intros [Hp|Hi]%orb_true_iff.
    + change (String a s +:+ t) with (String a (s +:+ t)). rewrite includes_cons.
      change (String a (s +:+ t)) with (String a s +:+ t).
      by rewrite (prefix_append _ _ _ Hp).
    + change (String a s +:+ t) with (String a (s +:+ t)). rewrite includes_cons.
      rewrite IH by done. apply orb_true_r.
Qed.

Lemma includes_append_r (n s t : string) :
  JS.includes n t = true → JS.includes n (s +:+ t) = true.
Proof.
  intros Ht. induction s as [|a s IH]; [done|].
  change (String a s +:+ t) with (String a (s +:+ t)).
  rewrite includes_cons, IH. apply orb_true_r.
Qed.

(** [type:name] without a dot: the target type, no class, the name. *)
Lemma parse_qualifier_plain (ty name : string) :
  ":"%char ∉ list_ascii_of_string ty →
  ":"%char ∉ list_ascii_of_string name → "."%char ∉ list_ascii_of_string name →
  parse_qualifier (ty +:+ ":" +:+ name) = (ty, name, None, name).
Proof.
  intros Hty Hcolon Hdot. unfold parse_qualifier, JS.split_str.
  rewrite !list_ascii_of_string_app.
  change (list_ascii_of_string ":") with [":"%char]. simpl.
  rewrite split_app_sep by done. rewrite split_no_sep by done. simpl.
  rewrite !string_of_list_ascii_of_string.
  by rewrite includes_char_absent.
Qed.

(** [type:Class.member]: the target type, the class and the member. *)
Lemma parse_qualifier_dotted (ty cls member : string) :
  ":"%char ∉ list_ascii_of_string ty →
  ":"%char ∉ list_ascii_of_string cls → "."%char ∉ list_ascii_of_string cls →
  ":"%char ∉ list_ascii_of_string member → "."%char ∉ list_ascii_of_string member →
  parse_qualifier (ty +:+ ":" +:+ cls +:+ "." +:+ member)
  = (ty, cls +:+ "." +:+ member, Some cls, member).
Proof.
  intros Hty Hc1 Hc2 Hm1 Hm2. unfold parse_qualifier, JS.split_str.
  assert (list_ascii_of_string (cls +:+ "." +:+ member)
          = list_ascii_of_string cls ++ "."%char :: list_ascii_of_string member) as Hpath.
  { by rewrite !list_ascii_of_string_app. }
  rewrite (list_ascii_of_string_app ty), (list_ascii_of_string_app ":").
  change (list_ascii_of_string ":") with [":"%char]. simpl.
  rewrite split_app_sep by done.
  rewrite split_no_sep.
  2:{ rewrite Hpath. intros [?|[?|?]%elem_of_cons]%elem_of_app; done. }
  simpl. rewrite !string_of_list_ascii_of_string.
  rewrite includes_char_present.
  2:{ rewrite Hpath. apply elem_of_app. right. by left. }
  rewrite Hpath, split_app_sep by done. rewrite split_no_sep by done. simpl.
  by rewrite !string_of_list_ascii_of_string.
Qed.

Lemma summarise_fields (p : params) (r : target_result) :
  target_type (summarise p r) = target_type r
  ∧ target_name (summarise p r) = target_name r
  ∧ target_class_name (summarise p r) = target_class_name r
  ∧ target_start (summarise p r) = target_start r
  ∧ target_end (summarise p r) = target_end r
  ∧ code (summarise p r) = code r
  ∧ context_before (summarise p r) = context_before r
  ∧ context_after (summarise p r) = context_after r.
Proof. unfold summarise. by destruct (verbose p). Qed.

Lemma first_hit_is_some {A B} (visit : A → option B) (l : list A) (x : A) :
  x ∈ l → is_Some (visit x) → is_Some (first_hit visit l).
Proof.
  induction l as [|y l IH]; [by intros ?%elem_of_nil|].
  intros [->|Hin]%elem_of_cons Hx; simpl.
  - by destruct Hx as [r ->].
  - destruct (visit y); [done | by apply IH].
Qed.

(** The visitors for the target type [class] without a class name hit
    exactly the class declarations of that name. *)
Lemma visit_class (p : params) (lines : list JS.text) (ctx : Z)
    (name : string) (node : Ast.node) :
  visit_target p lines ctx "class" name None node =
    if bool_decide (class_id node = Some name)
    then Some (extractCode p lines ctx (Ast.start_of (Ast.node_loc node))
                 (Ast.end_of (Ast.node_loc node)) "class" name None)
    else None.
Proof.
  unfold visit_target, class_id. destruct node as [k l children]. simpl.
  destruct k; simpl; try done; by case_bool_decide.
Qed.

(** With a class name, the visitors for the target type [class] hit only
    methods of classes of that name. *)
Lemma visit_class_member (p : params) (lines : list JS.text) (ctx : Z)
    (cls member : string) (node : Ast.node) (r : target_result) :
  cls ≠ "" →
  visit_target p lines ctx "class" member (Some cls) node = Some r →
  class_id node = Some cls
  ∧ ∃ m, method_in_class member node = Some m
         ∧ r = extractCode p lines ctx (Ast.start_of (Ast.m_loc m))
                 (Ast.end_of (Ast.m_loc m)) "method" member (Some cls).
Proof.
  intros Hcls. destruct cls as [|c cls']; [done|].
  unfold visit_target, class_id, method_in_class.
  destruct node as [k l children]. simpl.
  destruct k; simpl; try done.
  case_bool_decide as Hid; [|done].
  destruct (find_method body member) as [m|]; [|done].
  intros [= <-]. split; [done|]. by exists m.
Qed.

(** The visitors for the target type [method] without a class name hit
    only classes that have the method. *)
Lemma visit_method (p : params) (lines : list JS.text) (ctx : Z)
    (name : string) (node : Ast.node) :
  is_Some (visit_target p lines ctx "method" name None node) →
  is_Some (method_in_class name node).
Proof.
  unfold visit_target, method_in_class. destruct node as [k l children]. simpl.
  destruct k; simpl; try by intros [? ?].
  destruct (find_method body name); [by eauto | by intros [? ?]].
Qed.


Lemma no_colon_in (s : string) :
  bool_decide (":"%char ∉ list_ascii_of_string s) = true →
  ":"%char ∉ list_ascii_of_string s.
Proof. apply bool_decide_eq_true_1. Qed.

Lemma parse_class_qualifier (name : string) :
  ":"%char ∉ list_ascii_of_string name → "."%char ∉ list_ascii_of_string name →
  parse_qualifier ("class:" +:+ name) = ("class", name, None, name).
Proof.
  intros Hcolon Hdot.
  exact (parse_qualifier_plain "class" name (no_colon_in "class" eq_refl) Hcolon Hdot).
Qed.

Lemma parse_method_qualifier (name : string) :
  ":"%char ∉ list_ascii_of_string name → "."%char ∉ list_ascii_of_string name →
  parse_qualifier ("method:" +:+ name) = ("method", name, None, name).
Proof.
  intros Hcolon Hdot.
  exact (parse_qualifier_plain "method" name (no_colon_in "method" eq_refl) Hcolon Hdot).
Qed.

Lemma parse_class_member_qualifier (cls member : string) :
  ":"%char ∉ list_ascii_of_string cls → "."%char ∉ list_ascii_of_string cls →
  ":"%char ∉ list_ascii_of_string member → "."%char ∉ list_ascii_of_string member →
  parse_qualifier ("class:" +:+ cls +:+ "." +:+ member)
  = ("class", cls +:+ "." +:+ member, Some cls, member).
Proof.
  intros Hc1 Hc2 Hm1 Hm2.
  exact (parse_qualifier_dotted "class" cls member (no_colon_in "class" eq_refl)
           Hc1 Hc2 Hm1 Hm2).
Qed.

Section Qualifiers.
Context {env : Env}.

Lemma readTarget_resolved (p : params) (qualifier : string) (content : JS.text)
    (lang : string) (ast : Ast.node) (ty path : string) (cls : option string)
    (name : string) :
  parse_qualifier qualifier = (ty, path, cls, name) →
  ty ≠ "imports" → ty ≠ "exports" →
  parse target_plugins content = inr ast →
  readTarget p qualifier content lang =
    match find_target p content ast ty name cls with
    | Some r => Target (summarise p r)
    | None =>
        createError (ty +:+ " '" +:+ path +:+ "' not found in file")
          "TARGET_NOT_FOUND" (file_path p) (read_mode p)
          (Some (not_found_hint ty name cls))
    end.
Proof.
  intros Hq Himports Hexports Hparse. unfold readTarget. rewrite Hq.
  rewrite !bool_decide_eq_false_2 by done. by rewrite Hparse.
Qed.


(** X11. A successful [class:Class.member] extraction is always the method
    [member] of a class declaration named [Class]: it never returns a
    method of another class, a function or a whole class. *)
Theorem qualified_member_is_from_named_class (p : params) (cls member : string)
    (content : JS.text) (lang : string) (ast : Ast.node) (r : target_result) :
  cls ≠ "" →
  ":"%char ∉ list_ascii_of_string cls → "."%char ∉ list_ascii_of_string cls →
  ":"%char ∉ list_ascii_of_string member → "."%char ∉ list_ascii_of_string member →
  parse target_plugins content = inr ast →
  readTarget p ("class:" +:+ cls +:+ "." +:+ member) content lang = Target r →
  target_type r = "method" ∧ target_name r = member
  ∧ target_class_name r = Some cls
  ∧ ∃ x m, x ∈ Ast.traversal ast
           ∧ class_id x.2 = Some cls
           ∧ method_in_class member x.2 = Some m
           ∧ target_start r = Ast.start_of (Ast.m_loc m)
           ∧ target_end r = Ast.end_of (Ast.m_loc m).
Proof.
  intros Hcls Hc1 Hc2 Hm1 Hm2 Hparse.
  rewrite (readTarget_resolved p _ content lang ast "class"
             (cls +:+ "." +:+ member) (Some cls) member);
    [|by apply parse_class_member_qualifier |done..].
  destruct (find_target p content ast "class" member (Some cls)) as [r'|] eqn:Hfind;
    [|done].
  intros [= <-]. unfold find_target in Hfind.
  apply first_hit_some in Hfind as (x & Hx & Hvisit).
  apply visit_class_member in Hvisit as (Hid & m & Hm & ->); [|done].
  destruct (summarise_fields p (extractCode p (JS.split JS.NEWLINE content)
    (JS.or_num (contextLines p) 5) (Ast.start_of (Ast.m_loc m))
    (Ast.end_of (Ast.m_loc m)) "method" member (Some cls)))
    as (-> & -> & -> & -> & -> & _).
  simpl. split; [done|]. split; [done|]. split; [by destruct cls|].
  by exists x, m.
Qed.

(** X12. Whatever [method:name] finds, [function:name] finds something
    too: the function query covers the method query. *)
Theorem function_query_covers_method_query (p : params) (name : string)
    (content : JS.text) (lang : string) (ast : Ast.node) :
  ":"%char ∉ list_ascii_of_string name → "."%char ∉ list_ascii_of_string name →
  parse target_plugins content = inr ast →
  success (readTarget p ("method:" +:+ name) content lang) = true →
  success (readTarget p ("function:" +:+ name) content lang) = true.
Proof.
  intros Hcolon Hdot Hparse.
  rewrite (readTarget_resolved p ("method:" +:+ name) content lang ast
             "method" name None name);
    [|by apply parse_method_qualifier |done..].
  rewrite (readTarget_resolved p ("function:" +:+ name) content lang ast
             "function" name None name);
    [|by apply parse_qualifier_function |done..].
  destruct (find_target p content ast "method" name None) as [r|] eqn:Hfind; [|done].
  intros _. unfold find_target in Hfind.
  apply first_hit_some in Hfind as (x & Hx & Hvisit).
  destruct (visit_method p _ _ name x.2 (mk_is_Some _ _ Hvisit)) as [m Hm].
  destruct (first_hit_is_some
    (λ path, visit_target p (JS.split JS.NEWLINE content)
               (JS.or_num (contextLines p) 5) "function" name None path.2)
    (Ast.traversal ast) x Hx) as [r' Hr'].
  { rewrite (visit_function_method _ _ _ _ _ m Hm). by eexists. }
  unfold find_target. by rewrite Hr'.
Qed.


End Qualifiers.

(** X14. For a node on the lines first to last of the file, splitting the
    extracted code at newlines gives exactly those lines of the file, so
    the code slice has last - first + 1 lines. *)
Theorem code_slice_lines (p : params) (content : JS.text) (ctx first last : Z)
    (targetType targetName : string) (className : option string) :
  let lines := JS.split JS.NEWLINE content in
  let r := extractCode p lines ctx first last targetType targetName className in
  1 ≤ first ≤ last → last ≤ Z.of_nat (length lines) →
  JS.split JS.NEWLINE (code r) = line_range lines first last
  ∧ Z.of_nat (length (JS.split JS.NEWLINE (code r))) = last - first + 1
  ∧ target_end r - target_start r + 1 = last - first + 1.
Proof.
  intros lines r Hfirst Hlast. unfold r, extractCode. simpl.
  set (run := JS.slice lines (first - 1) last).
  assert (run = take (Z.to_nat (last - first + 1)) (drop (Z.to_nat (first - 1)) lines))
    as Hrun.
  { unfold run. rewrite slice_in_range by lia. f_equal. lia. }
  assert (Z.of_nat (length run) = last - first + 1) as Hlen.
  { rewrite Hrun, length_take, length_drop. lia. }
  assert (JS.split JS.NEWLINE (JS.join JS.NEWLINE run) = run) as Hsplit.
  { apply split_join.
    - intros Hnil. rewrite Hnil in Hlen. simpl in Hlen. lia.
    - rewrite Hrun. apply Forall_take, Forall_drop, split_lines_no_sep. }
  rewrite Hsplit. split; [|split; [done | lia]].
  unfold run. rewrite slice_line_range by lia. f_equal; lia.
Qed.


Lemma qualified_member_is_from_named_class_witness :
  target_type
    (extractCode (request TargetMode (Some "class:C.s") None 5)
       (JS.split JS.NEWLINE three_methods_text) 5 1 1 "method" "s" (Some "C"))
  = "method".
Proof.
  refine (proj1 (qualified_member_is_from_named_class
    (env := fixture (inr three_methods))
    (request TargetMode (Some "class:C.s") None 5) "C" "s" three_methods_text
    "javascript" three_methods _ _ _ _ _ _ _ _)).
  - discriminate.
  - apply (bool_decide_unpack _). vm_compute. exact I.
  - apply (bool_decide_unpack _). vm_compute. exact I.
  - apply (bool_decide_unpack _). vm_compute. exact I.
  - apply (bool_decide_unpack _). vm_compute. exact I.
  - reflexivity.
  - vm_compute. reflexivity.
Defined.

Lemma function_query_covers_method_query_witness :
  success (readTarget (env := fixture (inr class_then_function))
             (request TargetMode (Some "function:foo") None 5) "function:foo"
             class_then_function_text "javascript") = true.
Proof.
  refine (function_query_covers_method_query (env := fixture (inr class_then_function))
    (request TargetMode (Some "function:foo") None 5) "foo"
    class_then_function_text "javascript" class_then_function _ _ _ _).
  - apply (bool_decide_unpack _). vm_compute. exact I.
  - apply (bool_decide_unpack _). vm_compute. exact I.
  - reflexivity.
  - vm_compute. reflexivity.
Defined.


Lemma code_slice_lines_witness :
  let lines := JS.split JS.NEWLINE twelve_lines in
  let r := extractCode (request TargetMode (Some "function:f") None 2)
             lines 2 6 7 "function" "f" None in
  JS.split JS.NEWLINE (code r) = line_range lines 6 7.
Proof.
  intros lines r.
  refine (proj1 (code_slice_lines (request TargetMode (Some "function:f") None 2)
    twelve_lines 2 6 7 "function" "f" None _ _)).
  - lia.
  - vm_compute. discriminate.
Defined.

(** ** What the outline lists *)
Section OutlineLists.
Context {env : Env}.

(** The recorded lines after a visit: those before, and the span of the
    node when it is a named class. *)
Lemma visit_outline_lines_iff (content : JS.text) (st : outline_state)
    (x : option Ast.node * Ast.node) (ln : Z) :
  ln ∈ classBodyLines (visit_outline content st x) ↔
  ln ∈ classBodyLines st ∨ named_class_spanning ln x.2 = true.
Proof.
  unfold visit_outline, named_class_spanning.
  destruct x as [parent [k l children]]. simpl.
  destruct k as [f|id init|[name|] superClass body|source specs|callee args
                |decl specs|decl|]; simpl.
  - destruct (Ast.fn_id f); [case_bool_decide|]; simpl; intuition congruence.
  - destruct id; [destruct (function_like init) as [[? ?]|]; [case_bool_decide|]|];
      simpl; intuition congruence.
  - rewrite elem_of_union, elem_of_list_to_set, elem_of_seqZ, andb_true_iff,
      !Z.leb_le. split; intros [?|?]; (by left) || (right; lia).
  - intuition congruence.
  - intuition congruence.
  - destruct callee as [callee|]; [destruct args as [|[source|] args];
      [|case_bool_decide|]|]; simpl; intuition congruence.
  - destruct decl as [[[?|]|?|[?|]|]|]; simpl; intuition congruence.
  - intuition congruence.
  - intuition congruence.
Qed.

(** The recorded lines after a run of visits are the spans of the named
    classes met. *)
Lemma fold_outline_lines_iff (content : JS.text)
    (l : list (option Ast.node * Ast.node)) (ln : Z) :
  ∀ st, ln ∈ classBodyLines (fold_left (visit_outline content) l st) ↔
        ln ∈ classBodyLines st ∨ ∃ x, x ∈ l ∧ named_class_spanning ln x.2 = true.
Proof.
  induction l as [|y l IH]; intros st; simpl.
  - split; [by left|]. intros [?|(x & Hx & _)]; [done | by apply elem_of_nil in Hx].
  - rewrite IH, visit_outline_lines_iff. split.
    + intros [[?|?]|(x & Hx & ?)]; [by left | right; exists y | right; exists x];
        (split; [|done]); [by left | by right].
    + intros [?|(x & [->|Hx]%elem_of_cons & ?)]; [by left; left | by left; right |].
      right. by exists x.
Qed.




(** Every function that a visit adds comes from the node visited. *)
Lemma visit_outline_functions_from (content : JS.text) (st : outline_state)
    (x : option Ast.node * Ast.node) (f : function_record) :
  f ∈ st_functions (visit_outline content st x) →
  f ∈ st_functions st
  ∨ (function_name x.2 = Some (func_name f)
     ∧ func_line f = Ast.start_of (Ast.node_loc x.2)
     ∧ Ast.start_of (Ast.node_loc x.2) ∉ classBodyLines st).
Proof.
  unfold function_name, visit_outline.
  destruct x as [parent [k l children]]. simpl.
  destruct k as [fn|[id|] init|[name|] superClass body|source specs|callee args
                |decl specs|decl|]; simpl; try by left.
  - destruct (Ast.fn_id fn) as [name|]; [|by left].
    case_bool_decide as Hin; [by left|].
    intros [?|Heq%list_elem_of_singleton]%elem_of_app; [by left | subst f; by right].
  - destruct (function_like init) as [[arrow fn]|]; [|by left].
    case_bool_decide as Hin; [by left|].
    intros [?|Heq%list_elem_of_singleton]%elem_of_app; [by left | subst f; by right].
  - destruct callee as [callee|]; [|by left].
    destruct args as [|[source|] args]; try by left.
    case_bool_decide; by left.
  - destruct decl as [[[?|]|?|[?|]|]|]; by left.
Qed.

Lemma fold_outline_functions_from (content : JS.text)
    (l : list (option Ast.node * Ast.node)) (f : function_record) :
  ∀ st, f ∈ st_functions (fold_left (visit_outline content) l st) →
        f ∈ st_functions st
        ∨ ∃ x, x ∈ l ∧ function_name x.2 = Some (func_name f)
               ∧ func_line f = Ast.start_of (Ast.node_loc x.2).
Proof.
  induction l as [|y l IH]; intros st; simpl; [by left|].
  intros [[Hf|(Hname & Hline & _)]%visit_outline_functions_from
         |(x & Hx & Hname & Hline)]%IH.
  - by left.
  - right. exists y. split; [by left | done].
  - right. exists x. split; [by right | done].
Qed.

End OutlineLists.

Section OutlineContents.
Context {env : Env}.

(** Every function among the collected ones that was not there before
    comes from a function node whose line was not recorded when the
    traversal reached it. *)
Lemma fold_outline_functions_origin (content : JS.text)
    (l : list (option Ast.node * Ast.node)) (f : function_record) :
  ∀ st, f ∈ st_functions (fold_left (visit_outline content) l st) →
        f ∈ st_functions st
        ∨ ∃ pre x post,
            l = pre ++ x :: post
            ∧ function_name x.2 = Some (func_name f)
            ∧ func_line f = Ast.start_of (Ast.node_loc x.2)
            ∧ Ast.start_of (Ast.node_loc x.2)
                ∉ classBodyLines (fold_left (visit_outline content) pre st).
Proof.
  induction l as [|y l IH]; intros st; simpl; [by left|].
  intros [[Hf|(Hname & Hline & Hnot)]%visit_outline_functions_from
         |(pre & x & post & -> & Hname & Hline & Hnot)]%IH.
  - by left.
  - right. by exists [], y, l.
  - right. by exists (y :: pre), x, post.
Qed.


(** X16. Every function that the outline lists carries the name and the
    start line of a function declaration or variable-bound function of
    the tree, and no named class visited before that node spans the line:
    methods and other nodes are never listed as functions. *)
Theorem outline_functions_come_from_nodes (p : params) (content : JS.text)
    (lang : string) (ast : Ast.node) (o : outline_result) (g : function_record) :
  parse outline_plugins content = inr ast →
  readOutline p content lang = Outline o →
  g ∈ functions (outline_structure o) →
  ∃ pre x post,
    Ast.traversal ast = pre ++ x :: post
    ∧ function_name x.2 = Some (func_name g)
    ∧ func_line g = Ast.start_of (Ast.node_loc x.2)
    ∧ ∀ y, y ∈ pre → named_class_spanning (func_line g) y.2 = false.
Proof.
  intros Hparse. unfold readOutline. rewrite Hparse. intros [= <-]. simpl.
  intros Hg.
  assert (g ∈ st_functions (collect_outline content ast)) as Hcollected.
  { eapply elem_of_sublist; [exact Hg | apply dedup_from_sublist]. }
  apply fold_outline_functions_origin in Hcollected
    as [Hinit|(pre & x & post & Htrav & Hname & Hline & Hnot)];
    [by apply elem_of_nil in Hinit|].
  exists pre, x, post. repeat (split; [done|]).
  intros y Hy. rewrite Hline.
  destruct (named_class_spanning _ y.2) eqn:Hspan; [|done].
  destruct Hnot. apply fold_outline_lines_iff. right. by exists y.
Qed.





(** X19. Every failed response of [execute] names the path of the
    request. *)
Theorem failures_carry_the_path (fs : file_system) (p : params) :
  success (execute fs p) = false →
  failure_path (execute fs p) = Some (file_path p).
Proof.
  assert (∀ content lang, success (readOutline p content lang) = false →
            failure_path (readOutline p content lang) = Some (file_path p)) as Hout.
  { intros content lang. unfold readOutline.
    by destruct (parse outline_plugins content). }
  unfold execute. destruct (fs (file_path p)) as [[bytes|e]|]; [|done..].
  destruct (read_mode p).
  - done.
  - apply Hout.
  - destruct (line p) as [n|]; [|done]. destruct (n =? 0); [done|].
    unfold readLines. by case_match.
  - destruct (target_qualifier p) as [[|c q]|]; [done| |done].
    unfold readTarget.
    destruct (parse_qualifier (String c q)) as [[[ty path] cls] name].
    case_match.
    { specialize (Hout (JS.utf8_decode bytes) (detectLanguage (file_path p))).
      by destruct (readOutline p _ _). }
    case_match.
    { specialize (Hout (JS.utf8_decode bytes) (detectLanguage (file_path p))).
      by destruct (readOutline p _ _). }
    destruct (parse target_plugins _); [done|].
    by destruct (find_target _ _ _ _ _ _).
Qed.

End OutlineContents.

(** ** Parsing a qualifier *)

(** X20. A qualifier written as [type:name] is read back as that type
    and name without a class, and one written as [type:Class.member] as
    that type, class and member. *)
Theorem qualifier_round_trip (ty cls name : string) :
  ":"%char ∉ list_ascii_of_string ty →
  ":"%char ∉ list_ascii_of_string cls → "."%char ∉ list_ascii_of_string cls →
  ":"%char ∉ list_ascii_of_string name → "."%char ∉ list_ascii_of_string name →
  parse_qualifier (ty +:+ ":" +:+ name) = (ty, name, None, name)
  ∧ parse_qualifier (ty +:+ ":" +:+ cls +:+ "." +:+ name)
    = (ty, cls +:+ "." +:+ name, Some cls, name).
Proof.
  intros Hty Hc1 Hc2 Hn1 Hn2. split.
  - by apply parse_qualifier_plain.
  - by apply parse_qualifier_dotted.
Qed.

(** X21. Only the first two parts of a qualifier count: what follows a
    second colon is ignored altogether, and what follows a second dot
    changes neither the class nor the member that is looked up. *)
Theorem qualifier_surplus_parts_ignored (ty cls name rest : string) :
  ":"%char ∉ list_ascii_of_string ty →
  ":"%char ∉ list_ascii_of_string cls → "."%char ∉ list_ascii_of_string cls →
  ":"%char ∉ list_ascii_of_string name → "."%char ∉ list_ascii_of_string name →
  parse_qualifier (ty +:+ ":" +:+ name +:+ ":" +:+ rest)
  = parse_qualifier (ty +:+ ":" +:+ name)
  ∧ (":"%char ∉ list_ascii_of_string rest →
     ∃ path, parse_qualifier (ty +:+ ":" +:+ cls +:+ "." +:+ name +:+ "." +:+ rest)
             = (ty, path, Some cls, name)).
Proof.
  intros Hty Hc1 Hc2 Hn1 Hn2. split.
  - rewrite (parse_qualifier_plain ty name) by done.
    unfold parse_qualifier, JS.split_str.
    rewrite !list_ascii_of_string_app.
    change (list_ascii_of_string ":") with [":"%char]. simpl.
    rewrite split_app_sep by done. rewrite split_app_sep by done. simpl.
    rewrite !string_of_list_ascii_of_string.
    by rewrite includes_char_absent.
  - intros Hrest. eexists. unfold parse_qualifier, JS.split_str.
    assert (list_ascii_of_string (cls +:+ "." +:+ name +:+ "." +:+ rest)
            = list_ascii_of_string cls ++ "."%char
                :: list_ascii_of_string name ++ "."%char :: list_ascii_of_string rest)
      as Hpath.
    { by rewrite !list_ascii_of_string_app. }
    rewrite (list_ascii_of_string_app ty), (list_ascii_of_string_app ":").
    change (list_ascii_of_string ":") with [":"%char]. simpl.
    rewrite split_app_sep by done.
    rewrite split_no_sep.
    2:{ rewrite Hpath.
        intros [?|[?|[?|[?|?]%elem_of_cons]%elem_of_app]%elem_of_cons]%elem_of_app;
          done. }
    simpl. rewrite !string_of_list_ascii_of_string.
    rewrite includes_char_present.
    2:{ rewrite Hpath. apply elem_of_app. right. by left. }
    rewrite Hpath, split_app_sep by done. rewrite split_app_sep by done. simpl.
    by rewrite !string_of_list_ascii_of_string.
Qed.

Lemma qualifier_round_trip_witness :
  parse_qualifier "method:Shape.area" = ("method", "Shape.area", Some "Shape", "area").
Proof.
  refine (proj2 (qualifier_round_trip "method" "Shape" "area" _ _ _ _ _));
    apply (bool_decide_unpack _); vm_compute; exact I.
Defined.

Lemma qualifier_surplus_parts_ignored_witness :
  parse_qualifier "function:a:b" = parse_qualifier "function:a".
Proof.
  refine (proj1 (qualifier_surplus_parts_ignored "function" "C" "a" "b" _ _ _ _ _));
    apply (bool_decide_unpack _); vm_compute; exact I.
Defined.

(** ** The outline properties at concrete files *)


Lemma outline_functions_come_from_nodes_witness :
  ∃ o g, readOutline (env := fixture (inr class_then_function))
           (request OutlineMode None None 5) class_then_function_text "javascript"
         = Outline o
         ∧ g ∈ functions (outline_structure o)
         ∧ ∃ pre x post,
             Ast.traversal class_then_function = pre ++ x :: post
             ∧ function_name x.2 = Some (func_name g)
             ∧ func_line g = Ast.start_of (Ast.node_loc x.2)
             ∧ ∀ y, y ∈ pre → named_class_spanning (func_line g) y.2 = false.
Proof.
  eexists. eexists. split; [vm_compute; reflexivity|].
  split; [simpl; apply list_elem_of_here|].
  refine (outline_functions_come_from_nodes (env := fixture (inr class_then_function))
    (request OutlineMode None None 5) class_then_function_text "javascript"
    class_then_function _ _ _ _ _).
  - reflexivity.
  - vm_compute. reflexivity.
  - simpl. apply list_elem_of_here.
Defined.



Lemma failures_carry_the_path_witness :
  failure_path (execute (env := fixture (inl syntax_error)) (λ _, None)
                  (request OutlineMode None None 5))
  = Some "/src/a.js".
Proof.
  refine (failures_carry_the_path (env := fixture (inl syntax_error)) (λ _, None)
    (request OutlineMode None None 5) _).
  reflexivity.
Defined.

(** ** From the outline to target mode *)

Lemma function_name_declares (name : string) (node : Ast.node) :
  function_name node = Some name → declares_function name node = true.
Proof.
  unfold function_name, declares_function. destruct node as [k l children]. simpl.
  destruct k as [f|[id|] init| | | | | |]; try done.
  - intros ->. by apply bool_decide_eq_true_2.
  - destruct (function_like init); [|done]. intros [= ->].
    rewrite andb_true_iff. split; by apply bool_decide_eq_true_2.
Qed.

(** A method that the outline would list is one that [find_method] finds. *)
Lemma listed_method_is_found (body : list Ast.member) (m : method_record) :
  m ∈ omap method_of body → is_Some (find_method body (method_name m)).
Proof.
  intros (mem & Hmem & Hof)%list_elem_of_omap.
  unfold method_of in Hof.
  destruct (Ast.is_class_method mem) eqn:Hmethod; [|done].
  destruct (Ast.m_key mem) as [key|] eqn:Hkey; [|done].
  injection Hof as <-. simpl.
  destruct (find_method body key) as [found|] eqn:Hfind; [by eexists|].
  apply list_elem_of_In in Hmem.
  pose proof (find_none _ _ Hfind mem Hmem) as Hnone. simpl in Hnone.
  rewrite Hmethod, Hkey in Hnone. by rewrite bool_decide_eq_true_2 in Hnone.
Qed.

Lemma visit_class_member_hit (p : params) (lines : list JS.text) (ctx : Z)
    (cls member : string) (node : Ast.node) :
  cls ≠ "" → class_id node = Some cls →
  is_Some (method_in_class member node) →
  is_Some (visit_target p lines ctx "class" member (Some cls) node).
Proof.
  intros Hcls. destruct cls as [|c cls']; [done|].
  unfold visit_target, class_id, method_in_class.
  destruct node as [k l children]. simpl.
  destruct k; simpl; try done.
  intros -> [m ->]. rewrite bool_decide_eq_true_2 by done. by eexists.
Qed.

Section OutlineToTarget.
Context {env : Env}.

(** Every class among the collected ones that was not there before comes
    from a named class declaration with the listed methods. *)
Lemma fold_outline_classes_origin (content : JS.text)
    (l : list (option Ast.node * Ast.node)) (c : class_record) :
  ∀ st, c ∈ st_classes (fold_left (visit_outline content) l st) →
        c ∈ st_classes st
        ∨ ∃ x superClass body,
            x ∈ l
            ∧ Ast.node_kind x.2
              = Ast.ClassDeclaration (Some (class_name c)) superClass body
            ∧ class_methods c = omap method_of body
            ∧ class_line c = Ast.start_of (Ast.node_loc x.2).
Proof.
  induction l as [|y l IH]; intros st; simpl; [by left|].
  intros [Hc|(x & superClass & body & Hx & Hrest)]%IH.
  - assert (c ∈ st_classes st
            ∨ ∃ superClass body,
                Ast.node_kind y.2
                = Ast.ClassDeclaration (Some (class_name c)) superClass body
                ∧ class_methods c = omap method_of body
                ∧ class_line c = Ast.start_of (Ast.node_loc y.2)) as [?|Hy].
    { revert Hc. unfold visit_outline.
      destruct y as [parent [k loc children]]. simpl.
      destruct k as [f|id init|[name|] superClass body|source specs|callee args
                    |decl specs|decl|]; simpl; try by left.
      - destruct (Ast.fn_id f); [case_bool_decide|]; by left.
      - destruct id; [destruct (function_like init) as [[? ?]|];
          [case_bool_decide|]|]; by left.
      - intros [?|Heq%list_elem_of_singleton]%elem_of_app; [by left|].
        subst c. right. by exists superClass, body.
      - destruct callee as [callee|]; [destruct args as [|[source|] args];
          [|case_bool_decide|]|]; by left.
      - destruct decl as [[[?|]|?|[?|]|]|]; by left. }
    + by left.
    + destruct Hy as (superClass & body & Hy). right.
      exists y, superClass, body. split; [by left | done].
  - right. exists x, superClass, body. split; [by right | done].
Qed.

(** X24. Every class that the outline lists can be extracted by name:
    when both parses give the same tree, [class:Name] succeeds for it and
    returns a whole class. *)
Theorem listed_class_can_be_extracted (p : params) (content : JS.text)
    (lang : string) (ast : Ast.node) (o : outline_result) (c : class_record) :
  parse outline_plugins content = inr ast →
  parse target_plugins content = inr ast →
  readOutline p content lang = Outline o →
  c ∈ classes (outline_structure o) →
  ":"%char ∉ list_ascii_of_string (class_name c) →
  "."%char ∉ list_ascii_of_string (class_name c) →
  ∃ r, readTarget p ("class:" +:+ class_name c) content lang = Target r
       ∧ target_type r = "class" ∧ target_name r = class_name c.
Proof.
  intros Hparse Htarget. unfold readOutline. rewrite Hparse. intros [= <-]. simpl.
  intros Hc Hcolon Hdot.
  apply fold_outline_classes_origin in Hc
    as [Hinit|(x & superClass & body & Hx & Hkind & _)];
    [by apply elem_of_nil in Hinit|].
  rewrite (readTarget_resolved p _ content lang ast "class" (class_name c) None
             (class_name c));
    [|by apply parse_class_qualifier |done..].
  destruct (first_hit_is_some
    (λ path, visit_target p (JS.split JS.NEWLINE content)
               (JS.or_num (contextLines p) 5) "class" (class_name c) None path.2)
    (Ast.traversal ast) x Hx) as [r Hr].
  { rewrite visit_class. unfold class_id. rewrite Hkind.
    rewrite bool_decide_eq_true_2 by done. by eexists. }
  unfold find_target. rewrite Hr. eexists. split; [done|].
  apply first_hit_some in Hr as (y & _ & Hy). rewrite visit_class in Hy.
  case_bool_decide; [|done]. injection Hy as <-.
  destruct (summarise_fields p (extractCode p (JS.split JS.NEWLINE content)
    (JS.or_num (contextLines p) 5) (Ast.start_of (Ast.node_loc y.2))
    (Ast.end_of (Ast.node_loc y.2)) "class" (class_name c) None))
    as (-> & -> & _). done.
Qed.

(** X25. Every method that the outline lists under a class can be
    extracted with [class:Class.method]: when both parses give the same
    tree the extraction succeeds and returns a method of that class. *)
Theorem listed_method_can_be_extracted (p : params) (content : JS.text)
    (lang : string) (ast : Ast.node) (o : outline_result) (c : class_record)
    (m : method_record) :
  parse outline_plugins content = inr ast →
  parse target_plugins content = inr ast →
  readOutline p content lang = Outline o →
  c ∈ classes (outline_structure o) → m ∈ class_methods c →
  class_name c ≠ "" →
  ":"%char ∉ list_ascii_of_string (class_name c) →
  "."%char ∉ list_ascii_of_string (class_name c) →
  ":"%char ∉ list_ascii_of_string (method_name m) →
  "."%char ∉ list_ascii_of_string (method_name m) →
  ∃ r, readTarget p ("class:" +:+ class_name c +:+ "." +:+ method_name m)
         content lang = Target r
       ∧ target_type r = "method" ∧ target_name r = method_name m
       ∧ target_class_name r = Some (class_name c).
Proof.
  intros Hparse Htarget. unfold readOutline. rewrite Hparse. intros [= <-]. simpl.
  intros Hc Hm Hne Hc1 Hc2 Hm1 Hm2.
  apply fold_outline_classes_origin in Hc
    as [Hinit|(x & superClass & body & Hx & Hkind & Hmethods & _)];
    [by apply elem_of_nil in Hinit|].
  rewrite Hmethods in Hm. apply listed_method_is_found in Hm.
  rewrite (readTarget_resolved p _ content lang ast "class"
             (class_name c +:+ "." +:+ method_name m) (Some (class_name c))
             (method_name m));
    [|by apply parse_class_member_qualifier |done..].
  destruct (first_hit_is_some
    (λ path, visit_target p (JS.split JS.NEWLINE content)
               (JS.or_num (contextLines p) 5) "class" (method_name m)
               (Some (class_name c)) path.2)
    (Ast.traversal ast) x Hx) as [r Hr].
  { apply visit_class_member_hit; [done| |].
    - unfold class_id. by rewrite Hkind.
    - unfold method_in_class. by rewrite Hkind. }
  unfold find_target. rewrite Hr. eexists. split; [done|].
  apply first_hit_some in Hr as (y & _ & Hy).
  apply visit_class_member in Hy as (_ & mem & _ & ->); [|done].
  destruct (summarise_fields p (extractCode p (JS.split JS.NEWLINE content)
    (JS.or_num (contextLines p) 5) (Ast.start_of (Ast.m_loc mem))
    (Ast.end_of (Ast.m_loc mem)) "method" (method_name m) (Some (class_name c))))
    as (-> & -> & -> & _).
  simpl. split; [done|]. split; [done|]. by destruct (class_name c).
Qed.

(** X26. Every function that the outline lists can be found by name: when
    both parses give the same tree, [function:name] succeeds for it. *)
Theorem listed_function_can_be_found (p : params) (content : JS.text)
    (lang : string) (ast : Ast.node) (o : outline_result) (g : function_record) :
  parse outline_plugins content = inr ast →
  parse target_plugins content = inr ast →
  readOutline p content lang = Outline o →
  g ∈ functions (outline_structure o) →
  ":"%char ∉ list_ascii_of_string (func_name g) →
  "."%char ∉ list_ascii_of_string (func_name g) →
  ∃ r, readTarget p ("function:" +:+ func_name g) content lang = Target r
       ∧ target_name r = func_name g.
Proof.
  intros Hparse Htarget. unfold readOutline. rewrite Hparse. intros [= <-]. simpl.
  intros Hg Hcolon Hdot.
  assert (g ∈ st_functions (collect_outline content ast)) as Hcollected.
  { eapply elem_of_sublist; [exact Hg | apply dedup_from_sublist]. }
  apply fold_outline_functions_from in Hcollected
    as [Hinit|(x & Hx & Hname & _)]; [by apply elem_of_nil in Hinit|].
  rewrite (readTarget_function p (func_name g) content lang ast) by done.
  destruct (first_hit_is_some
    (λ path, visit_target p (JS.split JS.NEWLINE content)
               (JS.or_num (contextLines p) 5) "function" (func_name g) None path.2)
    (Ast.traversal ast) x Hx) as [r Hr].
  { rewrite (visit_function_declared _ _ _ _ _ (function_name_declares _ _ Hname)).
    by eexists. }
  unfold find_target. rewrite Hr. eexists. split; [done|].
  apply first_hit_some in Hr as (y & _ & Hy).
  apply visit_target_extracts in Hy as (l & kind & cls & ->).
  by destruct (summarise_fields p (extractCode p (JS.split JS.NEWLINE content)
    (JS.or_num (contextLines p) 5) (Ast.start_of l) (Ast.end_of l) kind
    (func_name g) cls)) as (_ & -> & _).
Qed.

End OutlineToTarget.

(** ** Method queries and raw lines *)






Section RawLines.
Context {env : Env}.




End RawLines.



Lemma listed_class_can_be_extracted_witness :
  ∃ o c, readOutline (env := fixture (inr three_methods))
           (request OutlineMode None None 5) three_methods_text "javascript"
         = Outline o
         ∧ c ∈ classes (outline_structure o)
         ∧ ∃ r, readTarget (env := fixture (inr three_methods))
                  (request OutlineMode None None 5) ("class:" +:+ class_name c)
                  three_methods_text "javascript" = Target r
                ∧ target_type r = "class" ∧ target_name r = class_name c.
Proof.
  eexists. eexists. split; [vm_compute; reflexivity|].
  split; [simpl; apply list_elem_of_here|].
  refine (listed_class_can_be_extracted (env := fixture (inr three_methods))
    (request OutlineMode None None 5) three_methods_text "javascript"
    three_methods _ _ _ _ _ _ _ _).
  - reflexivity.
  - reflexivity.
  - vm_compute. reflexivity.
  - simpl. apply list_elem_of_here.
  - apply (bool_decide_unpack _). vm_compute. exact I.
  - apply (bool_decide_unpack _). vm_compute. exact I.
Defined.

Lemma listed_method_can_be_extracted_witness :
  ∃ o c m, readOutline (env := fixture (inr three_methods))
             (request OutlineMode None None 5) three_methods_text "javascript"
           = Outline o
           ∧ c ∈ classes (outline_structure o) ∧ m ∈ class_methods c
           ∧ ∃ r, readTarget (env := fixture (inr three_methods))
                    (request OutlineMode None None 5)
                    ("class:" +:+ class_name c +:+ "." +:+ method_name m)
                    three_methods_text "javascript" = Target r
                  ∧ target_type r = "method" ∧ target_name r = method_name m
                  ∧ target_class_name r = Some (class_name c).
Proof.
  eexists. eexists. eexists. split; [vm_compute; reflexivity|].
  split; [simpl; apply list_elem_of_here|].
  split; [simpl; apply list_elem_of_here|].
  refine (listed_method_can_be_extracted (env := fixture (inr three_methods))
    (request OutlineMode None None 5) three_methods_text "javascript"
    three_methods _ _ _ _ _ _ _ _ _ _ _ _ _).
  - reflexivity.
  - reflexivity.
  - vm_compute. reflexivity.
  - simpl. apply list_elem_of_here.
  - simpl. apply list_elem_of_here.
  - discriminate.
  - apply (bool_decide_unpack _). vm_compute. exact I.
  - apply (bool_decide_unpack _). vm_compute. exact I.
  - apply (bool_decide_unpack _). vm_compute. exact I.
  - apply (bool_decide_unpack _). vm_compute. exact I.
Defined.

Lemma listed_function_can_be_found_witness :
  ∃ o g, readOutline (env := fixture (inr class_then_function))
           (request OutlineMode None None 5) class_then_function_text "javascript"
         = Outline o
         ∧ g ∈ functions (outline_structure o)
         ∧ ∃ r, readTarget (env := fixture (inr class_then_function))
                  (request OutlineMode None None 5) ("function:" +:+ func_name g)
                  class_then_function_text "javascript" = Target r
                ∧ target_name r = func_name g.
Proof.
  eexists. eexists. split; [vm_compute; reflexivity|].
  split; [simpl; apply list_elem_of_here|].
  refine (listed_function_can_be_found (env := fixture (inr class_then_function))
    (request OutlineMode None None 5) class_then_function_text "javascript"
    class_then_function _ _ _ _ _ _ _ _).
  - reflexivity.
  - reflexivity.
  - vm_compute. reflexivity.
  - simpl. apply list_elem_of_here.
  - apply (bool_decide_unpack _). vm_compute. exact I.
  - apply (bool_decide_unpack _). vm_compute. exact I.
Defined.

(** ** Signatures in the outline *)

Lemma prefix_self (s : string) : String.prefix s s = true.
Proof.
  induction s as [|a s IH]; [done|]. simpl. by destruct (ascii_dec a a).
Qed.

Lemma includes_self (s : string) : JS.includes s s = true.
Proof. destruct s as [|a s]; [done|]. by rewrite includes_cons, prefix_self. Qed.

Lemma includes_head (s rest : string) : JS.includes s (s +:+ rest) = true.
Proof. apply includes_append_l, includes_self. Qed.

(** The signature of a function shows its modifier and, unless it is an
    arrow function, the name of its identifier. *)
Lemma getFunctionSignature_shows (arrow : bool) (f : Ast.fn_info) :
  (Ast.fn_async f = true → JS.includes "async " (getFunctionSignature arrow f) = true)
  ∧ (arrow = false → ∀ name, Ast.fn_id f = Some name →
     JS.includes name (getFunctionSignature arrow f) = true).
Proof.
  unfold getFunctionSignature, async_prefix. split.
  - intros ->. destruct arrow; apply (includes_head "async ").
  - intros -> name ->. simpl.
    apply includes_append_r, includes_append_r, includes_head.
Qed.

(** The signature of a method shows its name and its modifiers. *)
Lemma getMethodSignature_shows (m : Ast.member) (name : string) :
  Ast.m_key m = Some name →
  shows name (Ast.m_async m) (Ast.m_static m) (getMethodSignature m).
Proof.
  intros Hkey. unfold shows, getMethodSignature, async_prefix. rewrite Hkey. simpl.
  split; [|split].
  - apply includes_append_r, includes_append_r, includes_head.
  - intros ->. apply includes_append_r, (includes_head "async ").
  - intros ->. apply (includes_head "static ").
Qed.

Section Signatures.
Context {env : Env}.

Local Opaque getFunctionSignature getMethodSignature.

Lemma fold_outline_signatures (content : JS.text)
    (l : list (option Ast.node * Ast.node)) :
  ∀ st,
    Forall (λ g, shows (func_name g) (func_async g) false (func_signature g))
      (st_functions st) →
    Forall (λ c, Forall (λ m, shows (method_name m) (method_async m)
                                (method_static m) (method_signature m))
                   (class_methods c)) (st_classes st) →
    Forall (λ g, shows (func_name g) (func_async g) false (func_signature g))
      (st_functions (fold_left (visit_outline content) l st))
    ∧ Forall (λ c, Forall (λ m, shows (method_name m) (method_async m)
                                  (method_static m) (method_signature m))
                     (class_methods c))
        (st_classes (fold_left (visit_outline content) l st)).
Proof.
  induction l as [|y l IH]; intros st Hfunctions Hclasses; simpl; [done|].
  apply IH; unfold visit_outline; destruct y as [parent [k loc children]]; simpl.
  - destruct k as [f|id init|[name|] superClass body|source specs|callee args
                  |decl specs|decl|]; simpl; try done.
    + destruct (Ast.fn_id f) as [name|] eqn:Hid; [|done].
      case_bool_decide; [done|]. simpl.
      apply Forall_app. split; [done|]. apply Forall_singleton. simpl.
      destruct (getFunctionSignature_shows false f) as [Hasync Hname].
      split; [by apply Hname|]. split; [done | done].
    + destruct id as [name|]; [|done].
      destruct (function_like init) as [[arrow f]|]; [|done].
      case_bool_decide; [done|]. simpl.
      apply Forall_app. split; [done|]. apply Forall_singleton. simpl.
      destruct (getFunctionSignature_shows arrow f) as [Hasync _].
      split; [apply includes_head|]. split; [|done].
      intros Ha. apply includes_append_r, includes_append_r. by apply Hasync.
    + destruct callee as [callee|]; [destruct args as [|[source|] args];
        [|case_bool_decide|]|]; done.
    + by destruct decl as [[[?|]|?|[?|]|]|].
  - destruct k as [f|id init|[name|] superClass body|source specs|callee args
                  |decl specs|decl|]; simpl; try done.
    + destruct (Ast.fn_id f); [case_bool_decide|]; done.
    + destruct id; [destruct (function_like init) as [[? ?]|];
        [case_bool_decide|]|]; done.
    + apply Forall_app. split; [done|]. apply Forall_singleton. simpl.
      apply Forall_forall. intros m (mem & _ & Hof)%list_elem_of_omap.
      unfold method_of in Hof.
      destruct (Ast.is_class_method mem); [|done].
      destruct (Ast.m_key mem) as [key|] eqn:Hkey; [|done].
      injection Hof as <-. simpl. by apply getMethodSignature_shows.
    + destruct callee as [callee|]; [destruct args as [|[source|] args];
        [|case_bool_decide|]|]; done.
    + by destruct decl as [[[?|]|?|[?|]|]|].
Qed.

(** X27. The signature of every function that the outline lists contains
    the function's name, and contains [async ] when the function is
    async. *)
Theorem outline_function_signatures (p : params) (content : JS.text)
    (lang : string) (o : outline_result) (g : function_record) :
  readOutline p content lang = Outline o →
  g ∈ functions (outline_structure o) →
  JS.includes (func_name g) (func_signature g) = true
  ∧ (func_async g = true → JS.includes "async " (func_signature g) = true).
Proof.
  unfold readOutline. destruct (parse outline_plugins content) as [e|ast]; [done|].
  intros [= <-]. simpl. intros Hg.
  assert (g ∈ st_functions (collect_outline content ast)) as Hcollected.
  { eapply elem_of_sublist; [exact Hg | apply dedup_from_sublist]. }
  destruct (fold_outline_signatures content (Ast.traversal ast) outline_init)
    as [Hfunctions _]; [by constructor..|].
  fold (collect_outline content ast) in Hfunctions.
  rewrite Forall_forall in Hfunctions.
  destruct (Hfunctions g Hcollected) as (Hname & Hasync & _). done.
Qed.

(** X28. The signature of every method that the outline lists contains
    the method's name, contains [async ] when the method is async and
    [static ] when it is static. *)
Theorem outline_method_signatures (p : params) (content : JS.text)
    (lang : string) (o : outline_result) (c : class_record) (m : method_record) :
  readOutline p content lang = Outline o →
  c ∈ classes (outline_structure o) → m ∈ class_methods c →
  JS.includes (method_name m) (method_signature m) = true
  ∧ (method_async m = true → JS.includes "async " (method_signature m) = true)
  ∧ (method_static m = true → JS.includes "static " (method_signature m) = true).
Proof.
  unfold readOutline. destruct (parse outline_plugins content) as [e|ast]; [done|].
  intros [= <-]. simpl. intros Hc Hm.
  destruct (fold_outline_signatures content (Ast.traversal ast) outline_init)
    as [_ Hclasses]; [by constructor..|].
  fold (collect_outline content ast) in Hclasses.
  rewrite Forall_forall in Hclasses. specialize (Hclasses c Hc).
  rewrite Forall_forall in Hclasses. apply (Hclasses m Hm).
Qed.

End Signatures.

Lemma outline_function_signatures_witness :
  ∃ o g, readOutline (env := fixture (inr nested_f))
           (request OutlineMode None None 5) nested_f_text "javascript" = Outline o
         ∧ g ∈ functions (outline_structure o)
         ∧ JS.includes (func_name g) (func_signature g) = true
         ∧ (func_async g = true → JS.includes "async " (func_signature g) = true).
Proof.
  eexists. eexists. split; [vm_compute; reflexivity|].
  split; [simpl; apply list_elem_of_here|].
  refine (outline_function_signatures (env := fixture (inr nested_f))
    (request OutlineMode None None 5) nested_f_text "javascript" _ _ _ _).
  - vm_compute. reflexivity.
  - simpl. apply list_elem_of_here.
Defined.

Lemma outline_method_signatures_witness :
  ∃ o c m, readOutline (env := fixture (inr three_methods))
             (request OutlineMode None None 5) three_methods_text "javascript"
           = Outline o
           ∧ c ∈ classes (outline_structure o) ∧ m ∈ class_methods c
           ∧ JS.includes (method_name m) (method_signature m) = true
           ∧ (method_async m = true → JS.includes "async " (method_signature m) = true)
           ∧ (method_static m = true
              → JS.includes "static " (method_signature m) = true).
Proof.
  eexists. eexists. eexists. split; [vm_compute; reflexivity|].
  split; [simpl; apply list_elem_of_here|].
  split; [simpl; apply list_elem_of_here|].
  refine (outline_method_signatures (env := fixture (inr three_methods))
    (request OutlineMode None None 5) three_methods_text "javascript" _ _ _ _ _ _).
  - vm_compute. reflexivity.
  - simpl. apply list_elem_of_here.
  - simpl. apply list_elem_of_here.
Defined.
